(** * Code-owner approval check: a shallow embedding of
      [check_code_owners_approval.py] and its specification.

    The Python module decides, for a pull request, which changed files still
    lack the approval of one of their code owners.  Its functions are
    embedded below under their own names.  Exceptions are values of [result];
    the process-wide [lru_cache] of [get_team_members] is an explicit cache
    threaded through the evaluator; the GitHub client objects are records of
    the methods the module calls on them. *)

From Stdlib Require Import Ascii String ZArith.
From stdpp Require Import gmap strings list.

Open Scope string_scope.
Open Scope list_scope.

(** ** Python strings *)

Module PyStr.

(** [s.split(sep)] for a one-character separator: never the empty list. *)
Fixpoint split (sep : ascii) (s : string) : list string :=
  match s with
  | EmptyString => [EmptyString]
  | String ch rest =>
      if Ascii.eqb ch sep then EmptyString :: split sep rest
      else match split sep rest with
           | [] => [String ch EmptyString]
           | w :: ws => String ch w :: ws
           end
  end.

(** [s.replace(old, new)] for a one-character [old]. *)
Fixpoint replace (old : ascii) (new : string) (s : string) : string :=
  match s with
  | EmptyString => EmptyString
  | String ch rest =>
      if Ascii.eqb ch old then new +:+ replace old new rest
      else String ch (replace old new rest)
  end.

(** [sep.join(parts)]. *)
Definition join (sep : string) (parts : list string) : string :=
  String.concat sep parts.

(** [ch in s]. *)
Fixpoint contains (ch : ascii) (s : string) : bool :=
  match s with
  | EmptyString => false
  | String a rest => Ascii.eqb a ch || contains ch rest
  end.

(** ASCII [s.lower()]. *)
Definition lower_ascii (a : ascii) : ascii :=
  let n := nat_of_ascii a in
  if (65 <=? n)%nat && (n <=? 90)%nat then ascii_of_nat (n + 32) else a.

Fixpoint lower (s : string) : string :=
  match s with
  | EmptyString => EmptyString
  | String a rest => String (lower_ascii a) (lower rest)
  end.

End PyStr.

(** ** Exceptions and results *)

Inductive exn : Type :=
  | EnvironmentError (msg : string)
  | FileNotFoundError (msg : string)
  | AttributeError (msg : string)
  | IndexError (msg : string)
  | GithubException (msg : string).

(** [str(e)] *)
Definition str (e : exn) : string :=
  match e with
  | EnvironmentError msg | FileNotFoundError msg | AttributeError msg
  | IndexError msg | GithubException msg => msg
  end.

Inductive result (A : Type) : Type :=
  | Ok (a : A)
  | Raise (e : exn).
Arguments Ok {A} a.
Arguments Raise {A} e.

Definition is_ok {A} (r : result A) : bool :=
  match r with Ok _ => true | Raise _ => false end.

Definition rbind {A B} (r : result A) (k : A → result B) : result B :=
  match r with
  | Ok a => k a
  | Raise e => Raise e
  end.

Notation "'let?' x ':=' r 'in' k" := (rbind r (λ x, k))
  (at level 10, x name, r at level 100, k at level 200, only parsing).

(** [l[-1]] and [l[0]] *)
Definition item_last {A} (l : list A) : result A :=
  match last l with
  | Some a => Ok a
  | None => Raise (IndexError "list index out of range")
  end.

Definition item_first {A} (l : list A) : result A :=
  match l with
  | a :: _ => Ok a
  | [] => Raise (IndexError "list index out of range")
  end.

(** ** The GitHub client objects, as far as the module uses them *)

Record NamedUser := { login : string }.
Record Team := { get_members : result (list NamedUser) }.
Record Organization := { get_team_by_slug : string → result Team }.
Record Review := { user : NamedUser; state : string }.
Record File := { filename : string }.
Record PullRequest :=
  { get_files : result (list File);
    get_reviews : result (list Review) }.
(** [decoded_content.decode("utf-8")] of a content file. *)
Record ContentFile := { decoded_content : result string }.
Record Repository :=
  { get_contents : string → result (ContentFile + list ContentFile);
    get_pull : Z → result PullRequest }.
Record Github :=
  { get_repo : string → result Repository;
    get_organization : string → result Organization }.

(** An owner as the [codeowners] library reports it: [(owner_type, owner_name)]. *)
Definition owner : Type := string * string.

(** The [CodeOwners] object: the module only calls its method [of] (a reserved
    word here, hence [of_]). *)
Record CodeOwners := { of_ : string → list owner }.

(** ** The evaluator *)

(** The state of [lru_cache(maxsize=None)] on [get_team_members].  One process
    resolves a single organization, so an entry is keyed by the team slug. *)
Abbreviation Cache := (gmap string (list string)).

Definition M (A : Type) : Type := Cache → result A * Cache.

Definition ret {A} (a : A) : M A := λ cache, (Ok a, cache).

Definition bind {A B} (m : M A) (k : A → M B) : M B :=
  λ cache,
    match m cache with
    | (Ok a, cache') => k a cache'
    | (Raise e, cache') => (Raise e, cache')
    end.

Definition lift {A} (r : result A) : M A := λ cache, (r, cache).

Notation "'let*' x ':=' m 'in' k" := (bind m (λ x, k))
  (at level 10, x name, m at level 100, k at level 200, only parsing).

(** The outcome of a computation, the cache left behind dropped. *)
Definition outcome {A} (m : M A) (cache : Cache) : result A := (m cache).1.

(** The body of [get_team_members], below the decorator.  With [org = None]
    the attribute lookup [org.get_team_by_slug] raises. *)
Definition get_team_members_body (org : option Organization) (team_slug : string)
  : result (list string) :=
  match org with
  | None =>
      Raise (AttributeError "'NoneType' object has no attribute 'get_team_by_slug'")
  | Some o =>
      let? team := get_team_by_slug o team_slug in
      let? members := get_members team in
      Ok (map login members)
  end.

(** [get_team_members] as decorated: a hit returns the stored list, a miss runs
    the body and stores its value; an exception stores nothing. *)
Definition get_team_members (org : option Organization) (team_slug : string)
  : M (list string) :=
  λ cache,
    match cache !! team_slug with
    | Some members => (Ok members, cache)
    | None =>
        match get_team_members_body org team_slug with
        | Ok members => (Ok members, <[team_slug := members]> cache)
        | Raise e => (Raise e, cache)
        end
    end.

Definition get_file_owners (codeowners : CodeOwners) (filepath : string) : list owner :=
  of_ codeowners filepath.

(** The [for owner_type, owner_name in file_owners] loop of
    [get_missing_approvals_for_file]; the last argument is [missing_approvals]. *)
Fixpoint missing_approvals_loop (approved_reviews : gset string)
    (org : option Organization) (file_owners : list owner)
    (missing_approvals : list string) : M (list string) :=
  match file_owners with
  | [] => ret missing_approvals
  | (owner_type, owner_name) :: rest =>
      if String.eqb owner_type "TEAM" then
        let* team_slug := lift (item_last (PyStr.split "/" owner_name)) in
        let* team_members := get_team_members org team_slug in
        if negb (existsb (λ member, bool_decide (member ∈ approved_reviews)) team_members)
        then missing_approvals_loop approved_reviews org rest (missing_approvals ++ [owner_name])
        else missing_approvals_loop approved_reviews org rest missing_approvals
      else
        if negb (bool_decide (PyStr.replace "@" "" owner_name ∈ approved_reviews))
        then missing_approvals_loop approved_reviews org rest (missing_approvals ++ [owner_name])
        else missing_approvals_loop approved_reviews org rest missing_approvals
  end.

Definition get_missing_approvals_for_file (file : string) (codeowners : CodeOwners)
    (approved_reviews : gset string) (org : option Organization) : M (list string) :=
  let file_owners := get_file_owners codeowners file in
  missing_approvals_loop approved_reviews org file_owners [].

(** A [dict[str, list[str]]] in insertion order.  [d[k] = v] keeps the place of
    a key that is present and appends a new one. *)
Definition dict : Type := list (string * list string).

Fixpoint dict_set (d : dict) (k : string) (v : list string) : dict :=
  match d with
  | [] => [(k, v)]
  | (k', v') :: d' =>
      if String.eqb k' k then (k', v) :: d' else (k', v') :: dict_set d' k v
  end.

(** The [for file in modified_files] loop of [gather_missing_approvals]. *)
Fixpoint gather_loop (codeowners : CodeOwners) (approved_reviews : gset string)
    (org : option Organization) (modified_files : list string)
    (missing_approvals : dict) : M dict :=
  match modified_files with
  | [] => ret missing_approvals
  | file :: rest =>
      let* missing :=
        get_missing_approvals_for_file file codeowners approved_reviews org in
      match missing with
      | _ :: _ =>
          gather_loop codeowners approved_reviews org rest
            (dict_set missing_approvals file missing)
      | [] => gather_loop codeowners approved_reviews org rest missing_approvals
      end
  end.

Definition gather_missing_approvals (modified_files : list string)
    (codeowners : CodeOwners) (approved_reviews : gset string)
    (org : option Organization) : M dict :=
  gather_loop codeowners approved_reviews org modified_files [].

(** ** The run controller *)

(** What the process is started with: [os.getenv], the [Github] client
    constructor and the [CodeOwners] constructor of the [codeowners] library. *)
Record World :=
  { getenv : string → option string;
    Github_init : string → Github;
    CodeOwners_init : string → result CodeOwners }.

(** The parsed command line ([argparse.Namespace]). *)
Record Namespace := { pr_number : Z; repo_name : string }.

(** The [try] block in the loop of [get_codeowners]. *)
Definition read_codeowners_at (repo : Repository) (path : string) : result string :=
  let? contents := get_contents repo path in
  let? contents :=
    match contents with
    | inl file => Ok file
    | inr files => item_first files
    end in
  decoded_content contents.

Fixpoint get_codeowners_loop (repo : Repository) (codeowners_paths : list string)
  : option string :=
  match codeowners_paths with
  | [] => None
  | path :: rest =>
      match read_codeowners_at repo path with
      | Ok codeowners_content => Some codeowners_content
      | Raise _ => get_codeowners_loop repo rest
      end
  end.

Definition get_codeowners (w : World) (repo : Repository) : result CodeOwners :=
  let codeowners_paths := [".github/CODEOWNERS"; "docs/CODEOWNERS"; "CODEOWNERS"] in
  match get_codeowners_loop repo codeowners_paths with
  | None => Raise (FileNotFoundError "CODEOWNERS file not found in the repository.")
  | Some codeowners_content => CodeOwners_init w codeowners_content
  end.

Definition get_modified_files (pr : PullRequest) : result (list string) :=
  let? files := get_files pr in
  Ok (map filename files).

Definition get_approved_reviews (pr : PullRequest) : result (gset string) :=
  let? reviews := get_reviews pr in
  Ok (list_to_set
        (map (λ review, login (user review))
             (filter (λ review, state review = "APPROVED") reviews))).

(** Lines 141-160 of [check_all_owners_approved]: everything up to the value of
    [missing_approvals].  The process starts with an empty cache. *)
Definition run_missing_approvals (w : World) (args : Namespace) : result dict :=
  let? github_token :=
    match getenv w "GITHUB_TOKEN" with
    | None | Some EmptyString =>
        Raise (EnvironmentError "GITHUB_TOKEN environment variable not found.")
    | Some github_token => Ok github_token
    end in
  let g := Github_init w github_token in
  let? repo := get_repo g (repo_name args) in
  let? pr := get_pull repo (pr_number args) in
  let org :=
    match (let? name := item_first (PyStr.split "/" (repo_name args)) in
           get_organization g name) with
    | Ok o => Some o
    | Raise _ => None
    end in
  let? codeowners := get_codeowners w repo in
  let? modified_files := get_modified_files pr in
  let? approved_reviews := get_approved_reviews pr in
  outcome (gather_missing_approvals modified_files codeowners approved_reviews org) ∅.

(** The annotation printed for one entry of the report. *)
Definition missing_annotation (entry : string * list string) : string :=
  "::error::Missing approvals for " +:+ entry.1 +:+ " from: "
    +:+ PyStr.join ", " entry.2.

(** [check_all_owners_approved]: the lines printed and the value returned. *)
Definition check_all_owners_approved (w : World) (args : Namespace)
  : list string * result bool :=
  match run_missing_approvals w args with
  | Raise e => ([], Raise e)
  | Ok missing_approvals =>
      match missing_approvals with
      | _ :: _ => (map missing_annotation missing_approvals, Ok false)
      | [] => ([], Ok true)
      end
  end.

(** The [__main__] block after [parse_args]: the lines printed and the exit
    status. *)
Definition main (w : World) (args : Namespace) : list string * Z :=
  match check_all_owners_approved w args with
  | (out, Ok success) => (out, if success then 0%Z else 1%Z)
  | (out, Raise e) => (out ++ ["::error::" +:+ str e], 1%Z)
  end.

(** ** The ownership rule table *)

(** A rule of the ownership document: a path pattern and its owners. *)
Definition rule : Type := string * list owner.

Section RuleTable.

(** The glob match of a pattern against a path, as the [codeowners] library
    compiles it. *)
Variable pattern_matches : string → string → bool.

(** Modelled from the spec: the [of] method of the [codeowners] library's
    [CodeOwners] class is not part of this repository's sources.  It scans
    all rules in document order and answers with the owner list of the last
    rule whose pattern matches, the empty sequence when none does. *)
Definition owners_of (rules : list rule) (path : string) : list owner :=
  fold_left (λ found r, if pattern_matches r.1 path then r.2 else found) rules [].

Definition rule_table (rules : list rule) : CodeOwners :=
  {| of_ := owners_of rules |}.

End RuleTable.

(** A wildcard matcher to run the rule table on examples: [*] stands for any
    run of characters, every other character for itself. *)
Fixpoint wildcard (pattern : string) : string → bool :=
  match pattern with
  | EmptyString => λ path, if path is EmptyString then true else false
  | String "*" pattern' =>
      fix star (path : string) : bool :=
        wildcard pattern' path
        || match path with
           | EmptyString => false
           | String _ path' => star path'
           end
  | String ch pattern' =>
      λ path,
        match path with
        | EmptyString => false
        | String ch' path' => Ascii.eqb ch ch' && wildcard pattern' path'
        end
  end.

(** ** Auxiliary definitions for the statements *)

(** "Strip a leading [@]", as the specification words the normalisation. *)
Definition strip_leading_at (owner_name : string) : string :=
  match owner_name with
  | String "@" rest => rest
  | _ => owner_name
  end.

(** [segment] is the part of [name] after its last separator. *)
Definition final_segment (sep : ascii) (name segment : string) : Prop :=
  PyStr.contains sep segment = false ∧
  (name = segment ∨ ∃ prefix, name = prefix +:+ String sep segment).

(** The exception of an attribute lookup on [None]. *)
Definition none_has_no_attribute : exn :=
  AttributeError "'NoneType' object has no attribute 'get_team_by_slug'".

(** The cache only holds what the body of [get_team_members] returned. *)
Definition cache_ok (org : option Organization) (cache : Cache) : Prop :=
  ∀ team_slug members,
    cache !! team_slug = Some members →
    get_team_members_body org team_slug = Ok members.

(** The group lookup made for a Team owner: the body of [get_team_members] at
    the last [/]-segment of the owner's name. *)
Definition resolve_team (org : option Organization) (owner_name : string)
  : result (list string) :=
  let? team_slug := item_last (PyStr.split "/" owner_name) in
  get_team_members_body org team_slug.

(** The test one iteration of the owner loop makes, against the uncached
    lookup: [Ok true] when the owner's approval is missing. *)
Definition owner_unmet (approved_reviews : gset string) (org : option Organization)
    (o : owner) : result bool :=
  if String.eqb o.1 "TEAM" then
    let? team_members := resolve_team org o.2 in
    Ok (negb (existsb (λ member, bool_decide (member ∈ approved_reviews)) team_members))
  else
    Ok (negb (bool_decide (PyStr.replace "@" "" o.2 ∈ approved_reviews))).

(** The owner loop without the cache. *)
Fixpoint unmet_names (approved_reviews : gset string) (org : option Organization)
    (file_owners : list owner) : result (list string) :=
  match file_owners with
  | [] => Ok []
  | o :: rest =>
      let? unmet := owner_unmet approved_reviews org o in
      let? names := unmet_names approved_reviews org rest in
      Ok (if unmet then o.2 :: names else names)
  end.

(** The file loop without the cache. *)
Fixpoint gather_uncached (codeowners : CodeOwners) (approved_reviews : gset string)
    (org : option Organization) (modified_files : list string)
    (missing_approvals : dict) : result dict :=
  match modified_files with
  | [] => Ok missing_approvals
  | file :: rest =>
      let? missing :=
        unmet_names approved_reviews org (get_file_owners codeowners file) in
      gather_uncached codeowners approved_reviews org rest
        (if missing is [] then missing_approvals
         else dict_set missing_approvals file missing)
  end.

(** Every Team owner of the list resolves. *)
Definition teams_resolve (org : option Organization) (file_owners : list owner) : Prop :=
  ∀ owner_name, ("TEAM", owner_name) ∈ file_owners → is_ok (resolve_team org owner_name).

(** The keys of a report, in order. *)
Definition keys (d : dict) : list string := d.*1.

(** The first occurrences of the elements of a list, in order, those already
    [seen] left out. *)
Fixpoint first_occurrences (seen : gset string) (l : list string) : list string :=
  match l with
  | [] => []
  | x :: l' =>
      if bool_decide (x ∈ seen) then first_occurrences seen l'
      else x :: first_occurrences ({[x]} ∪ seen) l'
  end.

(** The owner's approval is missing (a group that does not resolve counts as
    missing). *)
Definition owner_pending (approved_reviews : gset string) (org : option Organization)
    (o : owner) : bool :=
  match owner_unmet approved_reviews org o with
  | Ok unmet => unmet
  | Raise _ => true
  end.

(** The names of the file's owners whose approval is missing, in the order the
    rule declares them. *)
Definition pending_names (codeowners : CodeOwners) (approved_reviews : gset string)
    (org : option Organization) (file : string) : list string :=
  (filter (λ o, owner_pending approved_reviews org o) (get_file_owners codeowners file)).*2.

(** What the run controller fetches before it evaluates: changed files, rule
    table, approvals and organization. *)
Definition fetch_inputs (w : World) (args : Namespace)
  : result (list string * CodeOwners * gset string * option Organization) :=
  let? github_token :=
    match getenv w "GITHUB_TOKEN" with
    | None | Some EmptyString =>
        Raise (EnvironmentError "GITHUB_TOKEN environment variable not found.")
    | Some github_token => Ok github_token
    end in
  let g := Github_init w github_token in
  let? repo := get_repo g (repo_name args) in
  let? pr := get_pull repo (pr_number args) in
  let org :=
    match (let? name := item_first (PyStr.split "/" (repo_name args)) in
           get_organization g name) with
    | Ok o => Some o
    | Raise _ => None
    end in
  let? codeowners := get_codeowners w repo in
  let? modified_files := get_modified_files pr in
  let? approved_reviews := get_approved_reviews pr in
  Ok (modified_files, codeowners, approved_reviews, org).

(** ** Inputs for the examples *)

Definition team_of (logins : list string) : Team :=
  {| get_members := Ok (map (λ name, {| login := name |}) logins) |}.

(** An organization with the teams [backend] (bob and carl) and [interns]
    (nobody); any other slug is unknown. *)
Definition octo_org : Organization :=
  {| get_team_by_slug := λ team_slug,
       if String.eqb team_slug "backend" then Ok (team_of ["bob"; "carl"])
       else if String.eqb team_slug "interns" then Ok (team_of [])
       else Raise (GithubException "404 Not Found") |}.

Definition example_rules : list rule :=
  [ ("*.md", [("USERNAME", "@alice")]);
    ("src/*", [("TEAM", "@octo/backend"); ("USERNAME", "@dana")]);
    ("jobs/*", [("TEAM", "@octo/interns"); ("EMAIL", "dev@example.com")]);
    ("ops/*", [("TEAM", "@octo/ghosts")]) ].

Definition example_codeowners : CodeOwners := rule_table wildcard example_rules.

Definition approval_by (name : string) : Review :=
  {| user := {| login := name |}; state := "APPROVED" |}.

Definition example_repo (files approvers : list string) : Repository :=
  {| get_contents := λ path,
       if String.eqb path "CODEOWNERS"
       then Ok (inl {| decoded_content := Ok "*.md @alice" |})
       else Raise (GithubException "404 Not Found");
     get_pull := λ _,
       Ok {| get_files := Ok (map (λ name, {| filename := name |}) files);
             get_reviews := Ok (map approval_by approvers) |} |}.

(** A run on a repository whose owner is, or is not, an organization.  The
    rule table is [example_rules] whatever the document says. *)
Definition example_world (owner_is_org : bool) (files approvers : list string) : World :=
  {| getenv := λ name, if String.eqb name "GITHUB_TOKEN" then Some "secret" else None;
     Github_init := λ _,
       {| get_repo := λ _, Ok (example_repo files approvers);
          get_organization := λ _,
            if owner_is_org then Ok octo_org
            else Raise (GithubException "404 Not Found") |};
     CodeOwners_init := λ _, Ok example_codeowners |}.

Definition example_args : Namespace := {| pr_number := 7; repo_name := "octo/app" |}.

(** A review of the given state by the given user. *)
Definition review_by (name review_state : string) : Review :=
  {| user := {| login := name |}; state := review_state |}.

(** A repository where [.github/CODEOWNERS] is an empty directory listing,
    [docs/CODEOWNERS] a listing of two files and [CODEOWNERS] a file. *)
Definition nested_repo : Repository :=
  {| get_contents := λ path,
       if String.eqb path ".github/CODEOWNERS" then Ok (inr [])
       else if String.eqb path "docs/CODEOWNERS"
       then Ok (inr [ {| decoded_content := Ok "* @docs-owner" |};
                      {| decoded_content := Ok "* @second-entry" |} ])
       else if String.eqb path "CODEOWNERS"
       then Ok (inl {| decoded_content := Ok "* @root-owner" |})
       else Raise (GithubException "404 Not Found");
     get_pull := λ _, Raise (GithubException "404 Not Found") |}.

(** A repository without an ownership document; its pull requests cannot be
    listed either. *)
Definition bare_repo : Repository :=
  {| get_contents := λ _, Raise (GithubException "404 Not Found");
     get_pull := λ _,
       Ok {| get_files := Raise (GithubException "502 Bad Gateway");
             get_reviews := Raise (GithubException "502 Bad Gateway") |} |}.

(** A run with the given value of [GITHUB_TOKEN] on the given repository; the
    rule table gives every file the document's text as its only owner. *)
Definition world_of (token : option string) (repo : Repository) : World :=
  {| getenv := λ name, if String.eqb name "GITHUB_TOKEN" then token else None;
     Github_init := λ _,
       {| get_repo := λ _, Ok repo;
          get_organization := λ _, Ok octo_org |};
     CodeOwners_init := λ content, Ok {| of_ := λ _, [("USERNAME", content)] |} |}.

(** An organization whose team [backend] resolves, whose team [locked] exists
    but does not list its members, and where any other slug is unknown. *)
Definition strict_org : Organization :=
  {| get_team_by_slug := λ team_slug,
       if String.eqb team_slug "backend" then Ok (team_of ["bob"; "carl"])
       else if String.eqb team_slug "locked"
       then Ok {| get_members := Raise (GithubException "403 Forbidden") |}
       else Raise (GithubException "404 Not Found") |}.

Definition strict_rules : list rule :=
  [ ("*.md", [("USERNAME", "@alice")]);
    ("src/*", [("TEAM", "@octo/backend"); ("TEAM", "@octo/locked");
               ("TEAM", "@octo/ghosts")]);
    ("ops/*", [("TEAM", "@octo/ghosts")]) ].

(** A run on a repository of [strict_org] under [strict_rules]. *)
Definition strict_world (files approvers : list string) : World :=
  {| getenv := λ name, if String.eqb name "GITHUB_TOKEN" then Some "secret" else None;
     Github_init := λ _,
       {| get_repo := λ _, Ok (example_repo files approvers);
          get_organization := λ _, Ok strict_org |};
     CodeOwners_init := λ _, Ok (rule_table wildcard strict_rules) |}.

(** ** The cache is transparent *)

Section CacheTransparent.

Context (approved : gset string) (org : option Organization).

Lemma cache_ok_empty : cache_ok org ∅.
Proof. intros slug members H. by rewrite lookup_empty in H. Qed.

Lemma get_team_members_uncached team_slug cache :
  cache_ok org cache →
  ∃ cache', cache_ok org cache' ∧
    get_team_members org team_slug cache = (get_team_members_body org team_slug, cache').
Proof.
  intros Hok. unfold get_team_members.
  destruct (cache !! team_slug) as [members|] eqn:Hhit.
  - exists cache. split; [done|]. by rewrite (Hok _ _ Hhit).
  - destruct (get_team_members_body org team_slug) as [members|e] eqn:Hbody.
    + exists (<[team_slug := members]> cache). split; [|done].
      intros slug ms. rewrite lookup_insert.
      case_decide; [intros [= <-]; by subst|apply Hok].
    + by exists cache.
Qed.

Lemma missing_approvals_loop_uncached file_owners :
  ∀ missing cache,
    cache_ok org cache →
    ∃ cache', cache_ok org cache' ∧
      missing_approvals_loop approved org file_owners missing cache =
        ((let? names := unmet_names approved org file_owners in Ok (missing ++ names)),
         cache').
Proof.
  induction file_owners as [|[owner_type owner_name] rest IH]; intros missing cache Hok.
  - exists cache. split; [done|]. simpl. by rewrite app_nil_r.
  - cbn [missing_approvals_loop unmet_names]. unfold owner_unmet, resolve_team.
    cbn [fst snd].
    destruct (String.eqb owner_type "TEAM").
    + unfold bind at 1, lift.
      destruct (item_last (PyStr.split "/" owner_name)) as [team_slug|e]; cbn [rbind].
      2: { by exists cache. }
      unfold bind.
      destruct (get_team_members_uncached team_slug cache Hok) as (c1 & Hc1 & ->).
      destruct (get_team_members_body org team_slug) as [members|e]; cbn [rbind].
      2: { by exists c1. }
      destruct (existsb _ members); cbn [negb].
      * destruct (IH missing c1 Hc1) as (c2 & Hc2 & ->). exists c2. split; [done|].
        by destruct (unmet_names approved org rest).
      * destruct (IH (missing ++ [owner_name]) c1 Hc1) as (c2 & Hc2 & ->).
        exists c2. split; [done|].
        destruct (unmet_names approved org rest); cbn [rbind]; [|done].
        by rewrite <- app_assoc.
    + cbn [rbind]. destruct (bool_decide _); cbn [negb].
      * destruct (IH missing cache Hok) as (c2 & Hc2 & ->). exists c2. split; [done|].
        by destruct (unmet_names approved org rest).
      * destruct (IH (missing ++ [owner_name]) cache Hok) as (c2 & Hc2 & ->).
        exists c2. split; [done|].
        destruct (unmet_names approved org rest); cbn [rbind]; [|done].
        by rewrite <- app_assoc.
Qed.

Lemma get_missing_approvals_for_file_uncached file codeowners cache :
  cache_ok org cache →
  ∃ cache', cache_ok org cache' ∧
    get_missing_approvals_for_file file codeowners approved org cache =
      (unmet_names approved org (get_file_owners codeowners file), cache').
Proof.
  intros Hok. unfold get_missing_approvals_for_file.
  destruct (missing_approvals_loop_uncached
              (get_file_owners codeowners file) [] cache Hok) as (c' & Hc' & ->).
  exists c'. split; [done|]. by destruct (unmet_names _ _ _).
Qed.

Lemma outcome_missing_approvals_loop file_owners cache :
  cache_ok org cache →
  outcome (missing_approvals_loop approved org file_owners []) cache =
    unmet_names approved org file_owners.
Proof.
  intros Hok. unfold outcome.
  destruct (missing_approvals_loop_uncached file_owners [] cache Hok)
    as (c' & _ & ->).
  by destruct (unmet_names _ _ _).
Qed.

Lemma outcome_get_missing_approvals_for_file file codeowners cache :
  cache_ok org cache →
  outcome (get_missing_approvals_for_file file codeowners approved org) cache =
    unmet_names approved org (get_file_owners codeowners file).
Proof.
  intros Hok. unfold outcome.
  by destruct (get_missing_approvals_for_file_uncached file codeowners cache Hok)
    as (c' & _ & ->).
Qed.

Lemma gather_loop_uncached codeowners modified_files :
  ∀ report cache,
    cache_ok org cache →
    ∃ cache', cache_ok org cache' ∧
      gather_loop codeowners approved org modified_files report cache =
        (gather_uncached codeowners approved org modified_files report, cache').
Proof.
  induction modified_files as [|file rest IH]; intros report cache Hok.
  - by exists cache.
  - cbn [gather_loop gather_uncached]. unfold bind.
    destruct (get_missing_approvals_for_file_uncached file codeowners cache Hok)
      as (c1 & Hc1 & ->).
    destruct (unmet_names approved org (get_file_owners codeowners file))
      as [[|name names]|e]; cbn [rbind].
    + apply IH, Hc1.
    + apply IH, Hc1.
    + by exists c1.
Qed.

Lemma outcome_gather_missing_approvals modified_files codeowners cache :
  cache_ok org cache →
  outcome (gather_missing_approvals modified_files codeowners approved org) cache =
    gather_uncached codeowners approved org modified_files [].
Proof.
  intros Hok. unfold outcome, gather_missing_approvals.
  by destruct (gather_loop_uncached codeowners modified_files [] cache Hok)
    as (c' & _ & ->).
Qed.

End CacheTransparent.

(** ** Facts about the string operations *)

Lemma split_not_nil sep s : PyStr.split sep s ≠ [].
Proof.
  destruct s as [|ch rest]; [done|]. simpl.
  destruct (Ascii.eqb ch sep); [done|]. by destruct (PyStr.split sep rest).
Qed.

Lemma split_without_sep sep s :
  PyStr.contains sep s = false → PyStr.split sep s = [s].
Proof.
  induction s as [|ch rest IH]; [done|]. simpl.
  intros [Hch Hrest]%orb_false_elim. rewrite Hch, (IH Hrest). done.
Qed.

Lemma split_app_sep sep prefix s :
  PyStr.split sep (prefix +:+ String sep s) = PyStr.split sep prefix ++ PyStr.split sep s.
Proof.
  induction prefix as [|ch rest IH]; simpl.
  - by rewrite Ascii.eqb_refl.
  - destruct (Ascii.eqb ch sep); [by rewrite IH|].
    rewrite IH. pose proof (split_not_nil sep rest).
    by destruct (PyStr.split sep rest).
Qed.

Lemma item_last_split_total sep s : ∃ segment, item_last (PyStr.split sep s) = Ok segment.
Proof.
  unfold item_last. pose proof (split_not_nil sep s) as Hne.
  destruct (last (PyStr.split sep s)) as [segment|] eqn:Hlast; [by exists segment|].
  by apply last_None in Hlast.
Qed.

Lemma item_last_split_final sep name segment :
  final_segment sep name segment → item_last (PyStr.split sep name) = Ok segment.
Proof.
  intros [Hfree [->|[prefix ->]]]; unfold item_last.
  - by rewrite split_without_sep.
  - by rewrite split_app_sep, (split_without_sep _ _ Hfree), last_snoc.
Qed.

Lemma replace_without_old old s :
  PyStr.contains old s = false → PyStr.replace old "" s = s.
Proof.
  induction s as [|ch rest IH]; [done|]. simpl.
  intros [Hch Hrest]%orb_false_elim. by rewrite Hch, (IH Hrest).
Qed.

Lemma replace_leading_at owner_name :
  PyStr.contains "@" (strip_leading_at owner_name) = false →
  PyStr.replace "@" "" owner_name = strip_leading_at owner_name.
Proof.
  destruct owner_name as [|ch rest]; [done|].
  destruct (Ascii.eqb ch "@") eqn:Hch.
  - apply Ascii.eqb_eq in Hch as ->. simpl. apply replace_without_old.
  - intros Hfree. rewrite replace_without_old; [|].
    + by destruct ch as [[] [] [] [] [] [] [] []].
    + revert Hfree. by destruct ch as [[] [] [] [] [] [] [] []].
Qed.

(** ** Facts about the owner loop *)

Lemma unmet_names_app approved org before after :
  unmet_names approved org (before ++ after) =
    (let? names1 := unmet_names approved org before in
     let? names2 := unmet_names approved org after in
     Ok (names1 ++ names2)).
Proof.
  induction before as [|o rest IH]; simpl.
  - by destruct (unmet_names approved org after).
  - destruct (owner_unmet approved org o) as [unmet|e]; cbn [rbind]; [|done].
    rewrite IH.
    destruct (unmet_names approved org rest) as [names1|e]; cbn [rbind]; [|done].
    destruct (unmet_names approved org after) as [names2|e]; cbn [rbind]; [|done].
    by destruct unmet.
Qed.

(** The owner at a given place of the list adds its name, or nothing, between
    what the owners before it and after it add. *)
Lemma unmet_names_at approved org before o after names1 names2 unmet :
  unmet_names approved org before = Ok names1 →
  unmet_names approved org after = Ok names2 →
  owner_unmet approved org o = Ok unmet →
  unmet_names approved org (before ++ o :: after) =
    Ok (names1 ++ (if unmet then [o.2] else []) ++ names2).
Proof.
  intros H1 H2 Ho. rewrite unmet_names_app, H1. cbn [rbind unmet_names].
  rewrite Ho, H2. cbn [rbind]. by destruct unmet.
Qed.

(** The same for the evaluator itself, from any cache the process can be in. *)
Lemma get_missing_approvals_for_file_at
    file codeowners approved org cache before o after names1 names2 unmet :
  cache_ok org cache →
  get_file_owners codeowners file = before ++ o :: after →
  outcome (missing_approvals_loop approved org before []) ∅ = Ok names1 →
  outcome (missing_approvals_loop approved org after []) ∅ = Ok names2 →
  owner_unmet approved org o = Ok unmet →
  outcome (get_missing_approvals_for_file file codeowners approved org) cache =
    Ok (names1 ++ (if unmet then [o.2] else []) ++ names2).
Proof.
  intros Hok Howners H1 H2 Ho.
  rewrite outcome_missing_approvals_loop in H1, H2 by apply cache_ok_empty.
  rewrite outcome_get_missing_approvals_for_file, Howners by done.
  by apply unmet_names_at.
Qed.

Lemma owner_unmet_individual approved org owner_type owner_name :
  owner_type ≠ "TEAM" →
  owner_unmet approved org (owner_type, owner_name) =
    Ok (negb (bool_decide (PyStr.replace "@" "" owner_name ∈ approved))).
Proof.
  intros Hty%String.eqb_neq. unfold owner_unmet. cbn [fst snd]. by rewrite Hty.
Qed.

Lemma owner_unmet_team approved org owner_name team_slug members :
  final_segment "/" owner_name team_slug →
  get_team_members_body org team_slug = Ok members →
  owner_unmet approved org ("TEAM", owner_name) =
    Ok (negb (existsb (λ member, bool_decide (member ∈ approved)) members)).
Proof.
  intros Hseg Hbody. unfold owner_unmet, resolve_team. cbn [fst snd].
  rewrite String.eqb_refl, (item_last_split_final _ _ _ Hseg). cbn [rbind].
  by rewrite Hbody.
Qed.

Lemma existsb_approved_iff (approved : gset string) (members : list string) :
  existsb (λ member, bool_decide (member ∈ approved)) members = true ↔
  list_to_set members ∩ approved ≠ (∅ : gset string).
Proof.
  rewrite existsb_exists. split.
  - intros (m & Hm%list_elem_of_In & Happ%bool_decide_eq_true). set_solver.
  - intros Hne. apply set_choose_L in Hne as [m Hm].
    exists m. rewrite bool_decide_eq_true, <- list_elem_of_In. set_solver.
Qed.

(** ** Individual owners *)

(** C1, as the code has it: an owner whose type is not TEAM adds its name to
    the file's missing list exactly when its name with every [@] removed (not
    only a leading one) is not in the approval set; the two normalisations
    agree on a name whose only [@] is a leading one. *)
Theorem individual_owner_missing_iff_name_without_at_unapproved
    file codeowners approved org cache before owner_type owner_name after
    names_before names_after :
  cache_ok org cache →
  owner_type ≠ "TEAM" →
  get_file_owners codeowners file = before ++ (owner_type, owner_name) :: after →
  outcome (missing_approvals_loop approved org before []) ∅ = Ok names_before →
  outcome (missing_approvals_loop approved org after []) ∅ = Ok names_after →
  outcome (get_missing_approvals_for_file file codeowners approved org) cache =
    Ok (names_before
        ++ (if decide (PyStr.replace "@" "" owner_name ∈ approved) then []
            else [owner_name])
        ++ names_after)
  ∧ (PyStr.contains "@" (strip_leading_at owner_name) = false →
     PyStr.replace "@" "" owner_name = strip_leading_at owner_name).
Proof.
  intros Hok Hty Howners Hb Ha. split; [|apply replace_leading_at].
  rewrite (get_missing_approvals_for_file_at _ _ _ _ _ _ _ _ _ _ _
             Hok Howners Hb Ha (owner_unmet_individual _ _ _ _ Hty)).
  cbn [snd]. by destruct (decide _) as [Hin|Hin];
    [rewrite (bool_decide_eq_true_2 _ Hin)|rewrite (bool_decide_eq_false_2 _ Hin)].
Qed.

Lemma individual_owner_missing_iff_name_without_at_unapproved_witness :
  outcome (get_missing_approvals_for_file "src/a.go" example_codeowners
             {["dana"]} (Some octo_org)) ∅ =
    Ok (["@octo/backend"]
        ++ (if decide (PyStr.replace "@" "" "@dana" ∈ ({["dana"]} : gset string))
            then [] else ["@dana"])
        ++ [])
  ∧ (PyStr.contains "@" (strip_leading_at "@dana") = false →
     PyStr.replace "@" "" "@dana" = strip_leading_at "@dana").
Proof.
  apply (individual_owner_missing_iff_name_without_at_unapproved
           "src/a.go" example_codeowners {["dana"]} (Some octo_org) ∅
           [("TEAM", "@octo/backend")] "USERNAME" "@dana" []).
  - apply cache_ok_empty.
  - discriminate.
  - reflexivity.
  - vm_compute. reflexivity.
  - reflexivity.
Defined.

(** C1, as stated, fails: the e-mail owner [dev@example.com] keeps its name
    when a leading [@] is stripped, that name is in the approval set, and the
    owner is still reported missing. *)
Lemma individual_owner_leading_at_counterexample :
  let approved : gset string := {["dev@example.com"]} in
  strip_leading_at "dev@example.com" ∈ approved ∧
  outcome (get_missing_approvals_for_file "notes.txt"
             {| of_ := λ _, [("EMAIL", "dev@example.com")] |} approved None) ∅ =
    Ok ["dev@example.com"].
Proof. split; [set_solver|]. vm_compute. reflexivity. Qed.

(** C10: membership of the normalised name is exact string membership.  The
    approval set holds [alice], which differs from the owner's name [Alice]
    only in letter case, and the owner is reported missing. *)
Theorem individual_owner_match_is_case_sensitive :
  ∃ (approved : gset string) (approver owner_name : string),
    approver ∈ approved ∧
    approver ≠ PyStr.replace "@" "" owner_name ∧
    PyStr.lower approver = PyStr.lower (PyStr.replace "@" "" owner_name) ∧
    ∀ file org,
      outcome (get_missing_approvals_for_file file
                 {| of_ := λ _, [("USERNAME", owner_name)] |} approved org) ∅ =
        Ok [owner_name].
Proof.
  exists {["alice"]}, "alice", "@Alice". split; [set_solver|].
  split; [discriminate|]. split; [reflexivity|].
  intros file org. vm_compute. reflexivity.
Qed.

(** ** Team owners *)

(** C5: a Team owner is looked up by the segment of its name after the last
    [/]; when that lookup succeeds, the owner adds its name to the file's
    missing list exactly when no resolved member is in the approval set. *)
Theorem team_owner_missing_iff_no_member_approved
    file codeowners approved org cache before owner_name after
    team_slug members names_before names_after :
  cache_ok org cache →
  get_file_owners codeowners file = before ++ ("TEAM", owner_name) :: after →
  final_segment "/" owner_name team_slug →
  get_team_members_body org team_slug = Ok members →
  outcome (missing_approvals_loop approved org before []) ∅ = Ok names_before →
  outcome (missing_approvals_loop approved org after []) ∅ = Ok names_after →
  outcome (get_missing_approvals_for_file file codeowners approved org) cache =
    Ok (names_before
        ++ (if decide (list_to_set members ∩ approved ≠ (∅ : gset string)) then []
            else [owner_name])
        ++ names_after).
Proof.
  intros Hok Howners Hseg Hbody Hb Ha.
  rewrite (get_missing_approvals_for_file_at _ _ _ _ _ _ _ _ _ _ _
             Hok Howners Hb Ha (owner_unmet_team approved _ _ _ _ Hseg Hbody)).
  cbn [snd]. destruct (decide _) as [Hne|Hempty].
  - apply existsb_approved_iff in Hne. by rewrite Hne.
  - destruct (existsb _ members) eqn:Hex; [|done].
    by apply existsb_approved_iff in Hex.
Qed.

Lemma team_owner_missing_iff_no_member_approved_witness :
  outcome (get_missing_approvals_for_file "src/a.go" example_codeowners
             {["bob"]} (Some octo_org)) ∅ =
    Ok ([]
        ++ (if decide (list_to_set ["bob"; "carl"] ∩ {["bob"]} ≠ (∅ : gset string))
            then [] else ["@octo/backend"])
        ++ ["@dana"]).
Proof.
  apply (team_owner_missing_iff_no_member_approved
           "src/a.go" example_codeowners {["bob"]} (Some octo_org) ∅
           [] "@octo/backend" [("USERNAME", "@dana")] "backend").
  - apply cache_ok_empty.
  - reflexivity.
  - split; [reflexivity|]. right. exists "@octo". reflexivity.
  - reflexivity.
  - reflexivity.
  - vm_compute. reflexivity.
Defined.

(** C9: a Team owner whose group resolves to no member at all is in the
    file's missing list, whatever the approval set. *)
Theorem empty_team_owner_always_missing
    file codeowners approved org cache before owner_name after
    team_slug names_before names_after :
  cache_ok org cache →
  get_file_owners codeowners file = before ++ ("TEAM", owner_name) :: after →
  final_segment "/" owner_name team_slug →
  get_team_members_body org team_slug = Ok [] →
  outcome (missing_approvals_loop approved org before []) ∅ = Ok names_before →
  outcome (missing_approvals_loop approved org after []) ∅ = Ok names_after →
  outcome (get_missing_approvals_for_file file codeowners approved org) cache =
    Ok (names_before ++ [owner_name] ++ names_after)
  ∧ ∃ missing,
      outcome (get_missing_approvals_for_file file codeowners approved org) cache =
        Ok missing ∧ owner_name ∈ missing.
Proof.
  intros Hok Howners Hseg Hbody Hb Ha.
  assert (outcome (get_missing_approvals_for_file file codeowners approved org) cache =
            Ok (names_before ++ [owner_name] ++ names_after)) as Hres.
  { by rewrite (get_missing_approvals_for_file_at _ _ _ _ _ _ _ _ _ _ _
                  Hok Howners Hb Ha (owner_unmet_team approved _ _ _ _ Hseg Hbody)). }
  split; [done|]. eexists. split; [exact Hres|]. set_solver.
Qed.

Lemma empty_team_owner_always_missing_witness :
  outcome (get_missing_approvals_for_file "jobs/nightly.yml" example_codeowners
             {["bob"; "dev@example.com"; "devexample.com"]} (Some octo_org)) ∅ =
    Ok ([] ++ ["@octo/interns"] ++ [])
  ∧ ∃ missing,
      outcome (get_missing_approvals_for_file "jobs/nightly.yml" example_codeowners
                 {["bob"; "dev@example.com"; "devexample.com"]} (Some octo_org)) ∅ =
        Ok missing ∧ "@octo/interns" ∈ missing.
Proof.
  apply (empty_team_owner_always_missing
           "jobs/nightly.yml" example_codeowners
           {["bob"; "dev@example.com"; "devexample.com"]} (Some octo_org) ∅
           [] "@octo/interns" [("EMAIL", "dev@example.com")] "interns").
  - apply cache_ok_empty.
  - reflexivity.
  - split; [reflexivity|]. right. exists "@octo". reflexivity.
  - reflexivity.
  - reflexivity.
  - vm_compute. reflexivity.
Defined.

(** ** The run controller *)

Lemma run_missing_approvals_fetch w args :
  run_missing_approvals w args =
    (let? inputs := fetch_inputs w args in
     outcome (gather_missing_approvals inputs.1.1.1 inputs.1.1.2 inputs.1.2 inputs.2) ∅).
Proof.
  unfold run_missing_approvals, fetch_inputs.
  destruct (getenv w "GITHUB_TOKEN") as [[|ch token]|]; cbn [rbind]; try done.
  destruct (get_repo _ _) as [repo|e]; cbn [rbind]; [|done].
  destruct (get_pull _ _) as [pr|e]; cbn [rbind]; [|done].
  destruct (get_codeowners w repo) as [codeowners|e]; cbn [rbind]; [|done].
  destruct (get_modified_files pr) as [files|e]; cbn [rbind]; [|done].
  destruct (get_approved_reviews pr) as [approved|e]; cbn [rbind]; done.
Qed.

Lemma main_of_report w args :
  main w args =
    match run_missing_approvals w args with
    | Ok [] => ([], 0%Z)
    | Ok (entry :: report) => (map missing_annotation (entry :: report), 1%Z)
    | Raise e => (["::error::" +:+ str e], 1%Z)
    end.
Proof.
  unfold main, check_all_owners_approved.
  by destruct (run_missing_approvals w args) as [[|entry report]|e].
Qed.

Lemma main_raise w args files codeowners approved org e :
  fetch_inputs w args = Ok (files, codeowners, approved, org) →
  outcome (gather_missing_approvals files codeowners approved org) ∅ = Raise e →
  run_missing_approvals w args = Raise e ∧
  main w args = (["::error::" +:+ str e], 1%Z).
Proof.
  intros Hfetch Hgather.
  assert (run_missing_approvals w args = Raise e) as Hrun.
  { rewrite run_missing_approvals_fetch, Hfetch. exact Hgather. }
  split; [done|]. by rewrite main_of_report, Hrun.
Qed.

(** ** A run without an organization *)

Lemma owner_unmet_no_org approved o :
  owner_unmet approved None o =
    if String.eqb o.1 "TEAM" then Raise none_has_no_attribute
    else Ok (negb (bool_decide (PyStr.replace "@" "" o.2 ∈ approved))).
Proof.
  unfold owner_unmet, resolve_team. destruct (String.eqb o.1 "TEAM"); [|done].
  by destruct (item_last_split_total "/" o.2) as [segment ->].
Qed.

Lemma unmet_names_no_org approved file_owners :
  (∃ names, unmet_names approved None file_owners = Ok names ∧
            ∀ owner_name, ("TEAM", owner_name) ∉ file_owners)
  ∨ unmet_names approved None file_owners = Raise none_has_no_attribute.
Proof.
  induction file_owners as [|[owner_type owner_name] rest IH].
  - left. exists []. split; [done|]. intros name Hin. by apply elem_of_nil in Hin.
  - cbn [unmet_names]. rewrite owner_unmet_no_org. cbn [fst snd].
    destruct (String.eqb owner_type "TEAM") eqn:Hty; [by right|].
    apply String.eqb_neq in Hty.
    destruct IH as [(names & -> & Hfree)| ->]; [|by right].
    left. eexists. split; [done|].
    intros name [Heq|Hin]%elem_of_cons; [congruence|by apply (Hfree name)].
Qed.

Lemma gather_uncached_no_org codeowners approved files :
  ∀ report file owner_name,
    file ∈ files →
    ("TEAM", owner_name) ∈ get_file_owners codeowners file →
    gather_uncached codeowners approved None files report = Raise none_has_no_attribute.
Proof.
  induction files as [|f rest IH]; intros report file owner_name Hfile Howner.
  - by apply elem_of_nil in Hfile.
  - cbn [gather_uncached].
    destruct (unmet_names_no_org approved (get_file_owners codeowners f))
      as [(names & -> & Hfree)| ->]; [|done].
    cbn [rbind]. apply elem_of_cons in Hfile as [->|Hrest].
    + by destruct (Hfree owner_name).
    + by apply (IH _ file owner_name).
Qed.

(** C2, at the code: with no organization ([org = None]) a Team owner of a
    changed file makes the evaluation raise [AttributeError]; there is no
    per-file report, the run prints that one error and exits 1. *)
Theorem team_owner_without_organization_aborts_run
    w args files codeowners approved file owner_name :
  fetch_inputs w args = Ok (files, codeowners, approved, None) →
  file ∈ files →
  ("TEAM", owner_name) ∈ get_file_owners codeowners file →
  outcome (gather_missing_approvals files codeowners approved None) ∅ =
    Raise none_has_no_attribute
  ∧ run_missing_approvals w args = Raise none_has_no_attribute
  ∧ main w args =
      (["::error::'NoneType' object has no attribute 'get_team_by_slug'"], 1%Z).
Proof.
  intros Hfetch Hfile Howner.
  assert (outcome (gather_missing_approvals files codeowners approved None) ∅ =
            Raise none_has_no_attribute) as Hgather.
  { rewrite outcome_gather_missing_approvals by apply cache_ok_empty.
    by apply (gather_uncached_no_org _ _ _ _ file owner_name). }
  destruct (main_raise _ _ _ _ _ _ _ Hfetch Hgather) as [Hrun Hmain].
  split; [done|]. split; [done|]. exact Hmain.
Qed.

Lemma team_owner_without_organization_aborts_run_witness :
  outcome (gather_missing_approvals ["README.md"; "src/a.go"] example_codeowners
             {["alice"; "bob"]} None) ∅ =
    Raise none_has_no_attribute
  ∧ run_missing_approvals
      (example_world false ["README.md"; "src/a.go"] ["alice"; "bob"]) example_args =
      Raise none_has_no_attribute
  ∧ main (example_world false ["README.md"; "src/a.go"] ["alice"; "bob"]) example_args =
      (["::error::'NoneType' object has no attribute 'get_team_by_slug'"], 1%Z).
Proof.
  apply (team_owner_without_organization_aborts_run
           (example_world false ["README.md"; "src/a.go"] ["alice"; "bob"])
           example_args ["README.md"; "src/a.go"] example_codeowners
           {["alice"; "bob"]} "src/a.go" "@octo/backend").
  - vm_compute. reflexivity.
  - set_solver.
  - vm_compute. set_solver.
Defined.

(** ** A group that cannot be resolved *)

Lemma owner_unmet_raise approved org o e :
  owner_unmet approved org o = Raise e →
  o.1 = "TEAM" ∧ resolve_team org o.2 = Raise e.
Proof.
  unfold owner_unmet. destruct (String.eqb o.1 "TEAM") eqn:Hty; [|done].
  apply String.eqb_eq in Hty. by destruct (resolve_team org o.2); intros [= ->].
Qed.

Lemma owner_unmet_team_ok approved org owner_name unmet :
  owner_unmet approved org ("TEAM", owner_name) = Ok unmet →
  is_ok (resolve_team org owner_name).
Proof.
  unfold owner_unmet. cbn [fst snd]. rewrite String.eqb_refl.
  by destruct (resolve_team org owner_name).
Qed.

Lemma unmet_names_raise approved org file_owners e :
  unmet_names approved org file_owners = Raise e →
  ∃ owner_name, ("TEAM", owner_name) ∈ file_owners ∧
                resolve_team org owner_name = Raise e.
Proof.
  induction file_owners as [|o rest IH]; [done|]. cbn [unmet_names].
  destruct (owner_unmet approved org o) as [unmet|e'] eqn:Ho; cbn [rbind].
  - destruct (unmet_names approved org rest) as [names|e'] eqn:Hrest; [done|].
    cbn [rbind]. intros [= ->]. destruct (IH eq_refl) as (name & Hin & Hres).
    exists name. split; [by apply elem_of_cons; right|done].
  - intros [= ->]. apply owner_unmet_raise in Ho as [Hty Hres].
    exists o.2. split; [|done]. destruct o as [ty name]. simpl in *. subst ty.
    by apply elem_of_cons; left.
Qed.

Lemma unmet_names_ok_resolve approved org file_owners names :
  unmet_names approved org file_owners = Ok names → teams_resolve org file_owners.
Proof.
  revert names. induction file_owners as [|o rest IH]; intros names.
  - intros _ name Hin. by apply elem_of_nil in Hin.
  - cbn [unmet_names].
    destruct (owner_unmet approved org o) as [unmet|e] eqn:Ho; [|done]. cbn [rbind].
    destruct (unmet_names approved org rest) as [names'|e] eqn:Hrest; [|done].
    intros _ name [<-|Hin]%elem_of_cons.
    + by apply (owner_unmet_team_ok approved org name unmet).
    + by apply (IH names').
Qed.

Lemma gather_uncached_unresolved codeowners approved org files :
  ∀ report file owner_name,
    file ∈ files →
    ("TEAM", owner_name) ∈ get_file_owners codeowners file →
    ¬ is_ok (resolve_team org owner_name) →
    ∃ e file' owner_name',
      file' ∈ files ∧
      ("TEAM", owner_name') ∈ get_file_owners codeowners file' ∧
      resolve_team org owner_name' = Raise e ∧
      gather_uncached codeowners approved org files report = Raise e.
Proof.
  induction files as [|f rest IH]; intros report file owner_name Hfile Howner Hbad.
  - by apply elem_of_nil in Hfile.
  - cbn [gather_uncached].
    destruct (unmet_names approved org (get_file_owners codeowners f))
      as [names|e] eqn:Hf; cbn [rbind].
    + apply elem_of_cons in Hfile as [->|Hrest].
      * destruct Hbad. by apply (unmet_names_ok_resolve _ _ _ _ Hf).
      * destruct (IH (if names is [] then report else dict_set report f names)
                     file owner_name Hrest Howner Hbad)
          as (e & file' & name' & Hin & Hown & Hres & Hraise).
        exists e, file', name'. split; [by apply elem_of_cons; right|done].
    + destruct (unmet_names_raise _ _ _ _ Hf) as (name' & Hin & Hres).
      exists e, f, name'. split; [by apply elem_of_cons; left|done].
Qed.

Lemma unmet_names_raise_first approved org file_owners e :
  unmet_names approved org file_owners = Raise e →
  ∃ before owner_name after,
    file_owners = before ++ ("TEAM", owner_name) :: after ∧
    teams_resolve org before ∧
    resolve_team org owner_name = Raise e.
Proof.
  induction file_owners as [|o rest IH]; [done|]. cbn [unmet_names].
  destruct (owner_unmet approved org o) as [unmet|e'] eqn:Ho; cbn [rbind].
  - destruct (unmet_names approved org rest) as [names|e'] eqn:Hrest; [done|].
    cbn [rbind]. intros [= ->].
    destruct (IH eq_refl) as (before & name & after & -> & Hbefore & Hres).
    exists (o :: before), name, after. split; [done|]. split; [|done].
    intros name' [<-|Hin]%elem_of_cons; [|by apply Hbefore].
    by apply (owner_unmet_team_ok approved org name' unmet).
  - intros [= ->]. apply owner_unmet_raise in Ho as [Hty Hres].
    destruct o as [ty name]. simpl in *. subst ty.
    exists [], name, rest. split; [done|]. split; [|done].
    by intros name' ?%elem_of_nil.
Qed.

Lemma gather_uncached_raise_iff codeowners approved org files e :
  ∀ report0,
    gather_uncached codeowners approved org files report0 = Raise e ↔
    ∃ before file after,
      files = before ++ file :: after ∧
      (∀ f, f ∈ before →
            is_ok (unmet_names approved org (get_file_owners codeowners f))) ∧
      unmet_names approved org (get_file_owners codeowners file) = Raise e.
Proof.
  induction files as [|f rest IH]; intros report0.
  - split; [done|]. intros (before & file & after & Heq & _). by destruct before.
  - cbn [gather_uncached].
    destruct (unmet_names approved org (get_file_owners codeowners f))
      as [names|e'] eqn:Hf; cbn [rbind].
    + rewrite IH. split.
      * intros (before & file & after & -> & Hbefore & Hfile).
        exists (f :: before), file, after. split; [done|]. split; [|done].
        intros g [->|Hg]%elem_of_cons; [by rewrite Hf|by apply Hbefore].
      * intros (before & file & after & Heq & Hbefore & Hfile).
        destruct before as [|b before]; injection Heq as -> ->.
        -- by rewrite Hf in Hfile.
        -- exists before, file, after. split; [done|]. split; [|done].
           intros g Hg. apply Hbefore. by apply elem_of_cons; right.
    + split.
      * intros [= ->]. exists [], f, rest. split; [done|]. split; [|done].
        by intros g ?%elem_of_nil.
      * intros (before & file & after & Heq & Hbefore & Hfile).
        destruct before as [|b before]; injection Heq as -> ->.
        -- rewrite Hf in Hfile. by injection Hfile as ->.
        -- specialize (Hbefore b). rewrite Hf in Hbefore. destruct Hbefore.
           by apply elem_of_cons; left.
Qed.

(** C3, as the code has it: in a run whose organization was resolved, when
    some Team owner of a changed file cannot be resolved, the evaluation stops
    at the first group lookup that fails, files taken in the order of the
    changed-file sequence and owners in the order of the rule, every Team
    owner met before it having resolved, and the exception of that lookup
    propagates: no per-file report is produced, the run prints that one
    exception as [::error::<message>] and exits 1. *)
Theorem first_unresolved_team_lookup_aborts_run
    w args files codeowners approved o file owner_name :
  fetch_inputs w args = Ok (files, codeowners, approved, Some o) →
  file ∈ files →
  ("TEAM", owner_name) ∈ get_file_owners codeowners file →
  ¬ is_ok (resolve_team (Some o) owner_name) →
  ∃ e files_before file' files_after before owner_name' after,
    files = files_before ++ file' :: files_after ∧
    (∀ f, f ∈ files_before →
          teams_resolve (Some o) (get_file_owners codeowners f)) ∧
    get_file_owners codeowners file' = before ++ ("TEAM", owner_name') :: after ∧
    teams_resolve (Some o) before ∧
    resolve_team (Some o) owner_name' = Raise e ∧
    outcome (gather_missing_approvals files codeowners approved (Some o)) ∅ = Raise e ∧
    run_missing_approvals w args = Raise e ∧
    main w args = (["::error::" +:+ str e], 1%Z).
Proof.
  intros Hfetch Hfile Howner Hbad.
  destruct (gather_uncached_unresolved codeowners approved (Some o) files []
              file owner_name Hfile Howner Hbad)
    as (e & _ & _ & _ & _ & _ & Hraise).
  pose proof Hraise as Hfirst.
  apply gather_uncached_raise_iff in Hfirst
    as (files_before & file' & files_after & Hfiles & Hbefore & Hfile').
  apply unmet_names_raise_first in Hfile'
    as (before & owner_name' & after & Howners & Hres_before & Hres).
  exists e, files_before, file', files_after, before, owner_name', after.
  split; [done|]. split.
  { intros f Hf. specialize (Hbefore f Hf).
    destruct (unmet_names approved (Some o) (get_file_owners codeowners f))
      as [names|e'] eqn:Hnames; [|done].
    by apply (unmet_names_ok_resolve _ _ _ _ Hnames). }
  do 3 (split; [done|]).
  rewrite <- (outcome_gather_missing_approvals _ _ _ _ ∅) in Hraise
    by apply cache_ok_empty.
  split; [done|]. by apply (main_raise _ _ _ _ _ _ _ Hfetch).
Qed.

Lemma first_unresolved_team_lookup_aborts_run_witness :
  ∃ e files_before file' files_after before owner_name' after,
    ["README.md"; "src/a.go"; "ops/deploy.sh"] = files_before ++ file' :: files_after ∧
    (∀ f, f ∈ files_before →
          teams_resolve (Some strict_org)
            (get_file_owners (rule_table wildcard strict_rules) f)) ∧
    get_file_owners (rule_table wildcard strict_rules) file' =
      before ++ ("TEAM", owner_name') :: after ∧
    teams_resolve (Some strict_org) before ∧
    resolve_team (Some strict_org) owner_name' = Raise e ∧
    outcome (gather_missing_approvals ["README.md"; "src/a.go"; "ops/deploy.sh"]
               (rule_table wildcard strict_rules) {["alice"]} (Some strict_org)) ∅ =
      Raise e ∧
    run_missing_approvals
      (strict_world ["README.md"; "src/a.go"; "ops/deploy.sh"] ["alice"]) example_args =
      Raise e ∧
    main (strict_world ["README.md"; "src/a.go"; "ops/deploy.sh"] ["alice"]) example_args =
      (["::error::" +:+ str e], 1%Z).
Proof.
  apply (first_unresolved_team_lookup_aborts_run
           (strict_world ["README.md"; "src/a.go"; "ops/deploy.sh"] ["alice"])
           example_args ["README.md"; "src/a.go"; "ops/deploy.sh"]
           (rule_table wildcard strict_rules) {["alice"]} strict_org
           "ops/deploy.sh" "@octo/ghosts").
  - vm_compute. reflexivity.
  - set_solver.
  - vm_compute. set_solver.
  - vm_compute. intros [].
Defined.

(** The run of the witness above: of the three lookups that would fail, the
    first one met, [@octo/locked] of [src/a.go], gives the exception. *)
Example first_of_three_failing_lookups :
  resolve_team (Some strict_org) "@octo/locked" = Raise (GithubException "403 Forbidden") ∧
  resolve_team (Some strict_org) "@octo/ghosts" = Raise (GithubException "404 Not Found") ∧
  main (strict_world ["README.md"; "src/a.go"; "ops/deploy.sh"] ["alice"]) example_args =
    (["::error::403 Forbidden"], 1%Z).
Proof. vm_compute. done. Qed.

(** C3, as stated, fails: the team [@octo/ghosts] owning [ops/deploy.sh]
    cannot be resolved; the evaluation raises instead of returning a report
    that lists the team, and the run prints the lookup error, not a
    missing-approvals line for the file. *)
Lemma unresolved_team_report_counterexample :
  let w := example_world true ["ops/deploy.sh"] ["alice"] in
  resolve_team (Some octo_org) "@octo/ghosts" = Raise (GithubException "404 Not Found") ∧
  get_file_owners example_codeowners "ops/deploy.sh" = [("TEAM", "@octo/ghosts")] ∧
  run_missing_approvals w example_args ≠ Ok [("ops/deploy.sh", ["@octo/ghosts"])] ∧
  run_missing_approvals w example_args = Raise (GithubException "404 Not Found") ∧
  main w example_args = (["::error::404 Not Found"], 1%Z).
Proof. vm_compute. repeat split; discriminate. Qed.

(** ** Exit status *)

(** C6: the exit status is 0 exactly when the run computes an empty report.
    A non-empty report gives status 1 with one annotation per reported file;
    an exception raised anywhere in the run gives status 1 with the single
    line [::error::<message>]. *)
Theorem exit_status_zero_iff_report_empty w args :
  ((main w args).2 = 0%Z ↔ run_missing_approvals w args = Ok [])
  ∧ (run_missing_approvals w args = Ok [] → main w args = ([], 0%Z))
  ∧ (∀ report,
       run_missing_approvals w args = Ok report → report ≠ [] →
       main w args = (map missing_annotation report, 1%Z))
  ∧ (∀ e,
       run_missing_approvals w args = Raise e →
       main w args = (["::error::" +:+ str e], 1%Z)).
Proof.
  rewrite main_of_report.
  destruct (run_missing_approvals w args) as [[|entry report]|e]; cbn [snd].
  - repeat split; try done. by intros report' [= <-].
  - repeat split; try done. by intros report' [= <-].
  - repeat split; try done. by intros e' [= <-].
Qed.

(** ** Owner lookup *)

Lemma owners_of_scan_no_match (pattern_matches : string → string → bool)
    (path : string) (rules : list rule) (found : list owner) :
  (∀ r, r ∈ rules → pattern_matches r.1 path = false) →
  fold_left (λ found r, if pattern_matches r.1 path then r.2 else found) rules found
    = found.
Proof.
  revert found. induction rules as [|r rest IH]; intros found Hnone; [done|].
  cbn [fold_left]. rewrite (Hnone r) by (by apply elem_of_cons; left).
  apply IH. intros r' Hin. apply Hnone. by apply elem_of_cons; right.
Qed.

(** C4: the owner lookup answers with the owner list of the last rule, in
    document order, whose pattern matches the path, whatever earlier rules
    match; it answers with the empty sequence when no rule matches. *)
Theorem owners_of_last_match_wins (pattern_matches : string → string → bool)
    (rules : list rule) (path : string) :
  (∀ before pattern owners after,
     rules = before ++ (pattern, owners) :: after →
     pattern_matches pattern path = true →
     (∀ r, r ∈ after → pattern_matches r.1 path = false) →
     get_file_owners (rule_table pattern_matches rules) path = owners)
  ∧ ((∀ r, r ∈ rules → pattern_matches r.1 path = false) →
     get_file_owners (rule_table pattern_matches rules) path = []).
Proof.
  unfold get_file_owners, rule_table, owners_of. cbn [of_]. split.
  - intros before pattern owners after -> Hmatch Hafter.
    rewrite fold_left_app. cbn [fold_left fst snd]. rewrite Hmatch.
    by apply owners_of_scan_no_match.
  - apply owners_of_scan_no_match.
Qed.

Lemma owners_of_last_match_wins_witness :
  get_file_owners
    (rule_table wildcard
       [("*.go", [("USERNAME", "@gopher")]); ("cmd/*.go", [("TEAM", "@octo/cli")]);
        ("*.md", [("USERNAME", "@alice")])])
    "cmd/main.go" = [("TEAM", "@octo/cli")]
  ∧ get_file_owners
      (rule_table wildcard [("*.go", [("USERNAME", "@gopher")])]) "Makefile" = [].
Proof.
  split.
  - apply (proj1 (owners_of_last_match_wins wildcard _ "cmd/main.go")
             [("*.go", [("USERNAME", "@gopher")])] "cmd/*.go" [("TEAM", "@octo/cli")]
             [("*.md", [("USERNAME", "@alice")])]).
    + reflexivity.
    + reflexivity.
    + intros r [->|Hin%elem_of_nil]%elem_of_cons; [reflexivity|done].
  - apply (proj2 (owners_of_last_match_wins wildcard _ "Makefile")).
    intros r [->|Hin%elem_of_nil]%elem_of_cons; [reflexivity|done].
Defined.

Lemma exit_status_zero_iff_report_empty_witness :
  main (example_world true ["README.md"; "LICENSE"] ["alice"]) example_args = ([], 0%Z)
  ∧ main (example_world true ["README.md"; "src/a.go"] ["carl"]) example_args =
      (["::error::Missing approvals for README.md from: @alice";
        "::error::Missing approvals for src/a.go from: @dana"], 1%Z).
Proof.
  split.
  - apply (proj1 (proj2 (exit_status_zero_iff_report_empty _ _))). vm_compute. reflexivity.
  - apply (proj1 (proj2 (proj2 (exit_status_zero_iff_report_empty
             (example_world true ["README.md"; "src/a.go"] ["carl"]) example_args)))
             [("README.md", ["@alice"]); ("src/a.go", ["@dana"])]).
    + vm_compute. reflexivity.
    + discriminate.
Defined.

(** ** The report *)

Lemma keys_dict_set d k v :
  keys (dict_set d k v) = if bool_decide (k ∈ keys d) then keys d else keys d ++ [k].
Proof.
  unfold keys. induction d as [|[k' v'] d IH]; [done|].
  cbn [dict_set]. destruct (String.eqb k' k) eqn:Hk.
  - apply String.eqb_eq in Hk as ->. cbn.
    rewrite bool_decide_eq_true_2; [done|by apply elem_of_cons; left].
  - apply String.eqb_neq in Hk. cbn [fmap list_fmap fst]. cbn in IH. rewrite IH.
    destruct (bool_decide (k ∈ d.*1)) eqn:Hin.
    + apply bool_decide_eq_true in Hin.
      rewrite bool_decide_eq_true_2; [done|by apply elem_of_cons; right].
    + apply bool_decide_eq_false in Hin.
      rewrite bool_decide_eq_false_2; [done|].
      intros [?|?]%elem_of_cons; [congruence|done].
Qed.

Lemma elem_of_dict_set d k v k' v' :
  (k', v') ∈ dict_set d k v → (k', v') ∈ d ∨ (k' = k ∧ v' = v).
Proof.
  induction d as [|[k0 v0] d IH]; cbn [dict_set].
  - intros [[= -> ->]|Hin%elem_of_nil]%elem_of_cons; [by right|done].
  - destruct (String.eqb k0 k) eqn:Hk.
    + apply String.eqb_eq in Hk as ->.
      intros [[= -> ->]|Hin]%elem_of_cons; [by right|].
      left. by apply elem_of_cons; right.
    + intros [[= -> ->]|Hin]%elem_of_cons.
      * left. by apply elem_of_cons; left.
      * destruct (IH Hin) as [Hd|Hnew]; [|by right].
        left. by apply elem_of_cons; right.
Qed.

Lemma owner_unmet_resolved approved org o :
  (∀ owner_name, o = ("TEAM", owner_name) → is_ok (resolve_team org owner_name)) →
  owner_unmet approved org o = Ok (owner_pending approved org o).
Proof.
  intros Hres. unfold owner_pending.
  destruct (owner_unmet approved org o) as [unmet|e] eqn:Ho; [done|].
  apply owner_unmet_raise in Ho as [Hty Hraise]. destruct o as [ty name].
  simpl in *. subst ty. specialize (Hres name eq_refl). by rewrite Hraise in Hres.
Qed.

Lemma unmet_names_resolved approved org file_owners :
  teams_resolve org file_owners →
  unmet_names approved org file_owners =
    Ok (filter (λ o, owner_pending approved org o) file_owners).*2.
Proof.
  induction file_owners as [|o rest IH]; intros Hres; [done|].
  cbn [unmet_names]. rewrite owner_unmet_resolved.
  2: { intros name ->. apply Hres. by apply elem_of_cons; left. }
  rewrite IH.
  2: { intros name Hin. apply Hres. by apply elem_of_cons; right. }
  cbn [rbind]. rewrite filter_cons.
  destruct (owner_pending approved org o); by case_decide.
Qed.

Lemma unmet_names_ok_pending codeowners approved org file names :
  unmet_names approved org (get_file_owners codeowners file) = Ok names →
  names = pending_names codeowners approved org file.
Proof.
  intros Hok. pose proof (unmet_names_ok_resolve _ _ _ _ Hok) as Hres.
  rewrite (unmet_names_resolved _ _ _ Hres) in Hok. by injection Hok as <-.
Qed.

(** Where an entry of the final report comes from. *)
Lemma gather_uncached_entries codeowners approved org files :
  ∀ report0 report file missing,
    gather_uncached codeowners approved org files report0 = Ok report →
    (file, missing) ∈ report →
    (file, missing) ∈ report0
    ∨ (file ∈ files ∧ missing ≠ [] ∧
       unmet_names approved org (get_file_owners codeowners file) = Ok missing).
Proof.
  induction files as [|f rest IH]; intros report0 report file missing.
  - intros [= <-] Hin. by left.
  - cbn [gather_uncached].
    destruct (unmet_names approved org (get_file_owners codeowners f))
      as [[|name names]|e] eqn:Hf; cbn [rbind]; [| |done]; intros Hrun Hin.
    + destruct (IH _ _ _ _ Hrun Hin) as [?|(? & ? & ?)]; [by left|].
      right. split; [by apply elem_of_cons; right|done].
    + destruct (IH _ _ _ _ Hrun Hin) as [Hset|(? & ? & ?)].
      * apply elem_of_dict_set in Hset as [?|[-> ->]]; [by left|].
        right. split; [by apply elem_of_cons; left|done].
      * right. split; [by apply elem_of_cons; right|done].
Qed.

(** The keys of the final report. *)
Lemma gather_uncached_keys codeowners approved org files :
  ∀ report0 report,
    gather_uncached codeowners approved org files report0 = Ok report →
    keys report =
      keys report0
      ++ first_occurrences (list_to_set (keys report0))
           (filter (λ file, pending_names codeowners approved org file ≠ []) files).
Proof.
  induction files as [|f rest IH]; intros report0 report.
  - intros [= <-]. by rewrite app_nil_r.
  - cbn [gather_uncached].
    destruct (unmet_names approved org (get_file_owners codeowners f))
      as [names|e] eqn:Hf; cbn [rbind]; [|done].
    pose proof (unmet_names_ok_pending _ _ _ _ _ Hf) as Hnames.
    rewrite filter_cons. destruct names as [|name names]; intros Hrun.
    + rewrite decide_False by (by rewrite <- Hnames; intros []). by apply IH.
    + rewrite decide_True by (by rewrite <- Hnames).
      rewrite (IH _ _ Hrun), keys_dict_set. cbn [first_occurrences].
      destruct (bool_decide (f ∈ keys report0)) eqn:Hseen.
      * apply bool_decide_eq_true in Hseen.
        rewrite bool_decide_eq_true_2 by (by apply elem_of_list_to_set). done.
      * apply bool_decide_eq_false in Hseen.
        rewrite bool_decide_eq_false_2 by (by rewrite elem_of_list_to_set).
        rewrite <- app_assoc. cbn [app]. do 3 f_equal.
        rewrite list_to_set_app_L. cbn [list_to_set foldr].
        rewrite (right_id_L ∅ (∪)). apply (comm_L (∪)).
Qed.

Lemma gather_uncached_resolved codeowners approved org files :
  (∀ file, file ∈ files → teams_resolve org (get_file_owners codeowners file)) →
  ∀ report0, ∃ report,
    gather_uncached codeowners approved org files report0 = Ok report.
Proof.
  induction files as [|f rest IH]; intros Hres report0; [by eexists|].
  cbn [gather_uncached]. rewrite unmet_names_resolved.
  2: { apply Hres. by apply elem_of_cons; left. }
  cbn [rbind]. apply IH. intros file Hin. apply Hres. by apply elem_of_cons; right.
Qed.

Lemma first_occurrences_NoDup seen l :
  NoDup l → (∀ x, x ∈ l → x ∉ seen) → first_occurrences seen l = l.
Proof.
  revert seen. induction l as [|x l IH]; intros seen Hnd Hfresh; [done|].
  apply NoDup_cons in Hnd as [Hx Hnd]. cbn [first_occurrences].
  rewrite bool_decide_eq_false_2 by (apply Hfresh; by apply elem_of_cons; left).
  f_equal. apply IH; [done|]. intros y Hy.
  intros [->%elem_of_singleton|Hseen]%elem_of_union; [done|].
  revert Hseen. apply Hfresh. by apply elem_of_cons; right.
Qed.

(** C7: when every Team owner of the changed files resolves, the evaluation
    returns a report whose keys are the changed files with a missing owner, in
    the order of the changed-file sequence (a repeated file at its first
    place), and whose value for a file lists the names, as written, of the
    file's owners whose approval is missing, in the order the matching rule
    declares them. *)
Theorem report_follows_input_and_rule_order files codeowners approved org cache :
  cache_ok org cache →
  (∀ file, file ∈ files → teams_resolve org (get_file_owners codeowners file)) →
  ∃ report,
    outcome (gather_missing_approvals files codeowners approved org) cache = Ok report
    ∧ keys report =
        first_occurrences ∅
          (filter (λ file, pending_names codeowners approved org file ≠ []) files)
    ∧ (NoDup files →
       keys report =
         filter (λ file, pending_names codeowners approved org file ≠ []) files)
    ∧ ∀ file missing,
        (file, missing) ∈ report →
        missing =
          (filter (λ o, owner_pending approved org o)
                  (get_file_owners codeowners file)).*2.
Proof.
  intros Hok Hres.
  destruct (gather_uncached_resolved codeowners approved org files Hres [])
    as [report Hrun].
  exists report. rewrite outcome_gather_missing_approvals by done.
  split; [done|].
  pose proof (gather_uncached_keys _ _ _ _ _ _ Hrun) as Hkeys. cbn in Hkeys.
  split; [done|]. split.
  - intros Hnd. rewrite Hkeys. apply first_occurrences_NoDup.
    + by apply NoDup_filter.
    + intros x _. apply not_elem_of_empty.
  - intros file missing Hin.
    destruct (gather_uncached_entries _ _ _ _ _ _ _ _ Hrun Hin)
      as [Hnil%elem_of_nil|(_ & _ & Hnames)]; [done|].
    by apply unmet_names_ok_pending in Hnames.
Qed.

Lemma report_follows_input_and_rule_order_witness :
  ∃ report,
    outcome (gather_missing_approvals
               ["src/a.go"; "LICENSE"; "jobs/nightly.yml"; "README.md"; "src/a.go"]
               example_codeowners {["alice"]} (Some octo_org)) ∅ = Ok report
    ∧ keys report =
        first_occurrences ∅
          (filter (λ file, pending_names example_codeowners {["alice"]}
                             (Some octo_org) file ≠ [])
             ["src/a.go"; "LICENSE"; "jobs/nightly.yml"; "README.md"; "src/a.go"])
    ∧ (NoDup ["src/a.go"; "LICENSE"; "jobs/nightly.yml"; "README.md"; "src/a.go"] →
       keys report =
         filter (λ file, pending_names example_codeowners {["alice"]}
                           (Some octo_org) file ≠ [])
           ["src/a.go"; "LICENSE"; "jobs/nightly.yml"; "README.md"; "src/a.go"])
    ∧ ∀ file missing,
        (file, missing) ∈ report →
        missing =
          (filter (λ o, owner_pending {["alice"]} (Some octo_org) o)
                  (get_file_owners example_codeowners file)).*2.
Proof.
  apply (report_follows_input_and_rule_order
           ["src/a.go"; "LICENSE"; "jobs/nightly.yml"; "README.md"; "src/a.go"]
           example_codeowners {["alice"]} (Some octo_org) ∅).
  - apply cache_ok_empty.
  - intros file Hfile owner_name Howner.
    repeat (apply elem_of_cons in Hfile as [->|Hfile]);
      [..|by apply elem_of_nil in Hfile];
      match type of Howner with
      | _ ∈ ?l => let l' := eval vm_compute in l in change l with l' in Howner
      end;
      repeat (apply elem_of_cons in Howner as [[= ->]|Howner]);
      try (by apply elem_of_nil in Howner); exact I.
Defined.

(** The report of the run in the witness above. *)
Example report_order_example :
  outcome (gather_missing_approvals
             ["src/a.go"; "LICENSE"; "jobs/nightly.yml"; "README.md"; "src/a.go"]
             example_codeowners {["alice"]} (Some octo_org)) ∅ =
    Ok [("src/a.go", ["@octo/backend"; "@dana"]);
        ("jobs/nightly.yml", ["@octo/interns"; "dev@example.com"])].
Proof. vm_compute. reflexivity. Qed.

(** C8: a changed file whose owner lookup is empty is not a key of the report,
    whatever the approval set; every entry of the report is a changed file
    with the non-empty missing list the evaluator computes for it. *)
Theorem report_holds_only_files_with_missing_owners
    files codeowners approved org cache report :
  cache_ok org cache →
  outcome (gather_missing_approvals files codeowners approved org) cache = Ok report →
  (∀ file, get_file_owners codeowners file = [] → file ∉ keys report)
  ∧ (∀ file missing,
       (file, missing) ∈ report →
       file ∈ files ∧ missing ≠ [] ∧
       outcome (get_missing_approvals_for_file file codeowners approved org) cache =
         Ok missing).
Proof.
  intros Hok Hrun. rewrite outcome_gather_missing_approvals in Hrun by done.
  assert (∀ file missing,
            (file, missing) ∈ report →
            file ∈ files ∧ missing ≠ [] ∧
            unmet_names approved org (get_file_owners codeowners file) = Ok missing)
    as Hentries.
  { intros file missing Hin.
    by destruct (gather_uncached_entries _ _ _ _ _ _ _ _ Hrun Hin)
      as [Hnil%elem_of_nil|?]. }
  split.
  - intros file Hnone Hkey. unfold keys in Hkey.
    apply list_elem_of_fmap in Hkey as ([file' missing] & -> & Hin).
    destruct (Hentries _ _ Hin) as (_ & Hne & Hnames). cbn [fst] in Hnone.
    rewrite Hnone in Hnames. by injection Hnames as <-.
  - intros file missing Hin. destruct (Hentries _ _ Hin) as (? & ? & ?).
    by rewrite outcome_get_missing_approvals_for_file.
Qed.

Lemma report_holds_only_files_with_missing_owners_witness :
  (∀ file, get_file_owners example_codeowners file = [] →
           file ∉ keys [("src/a.go", ["@octo/backend"; "@dana"])])
  ∧ (∀ file missing,
       (file, missing) ∈ [("src/a.go", ["@octo/backend"; "@dana"])] →
       file ∈ ["LICENSE"; "src/a.go"; "README.md"] ∧ missing ≠ [] ∧
       outcome (get_missing_approvals_for_file file example_codeowners {["alice"]}
                  (Some octo_org)) ∅ = Ok missing).
Proof.
  apply (report_holds_only_files_with_missing_owners
           ["LICENSE"; "src/a.go"; "README.md"] example_codeowners {["alice"]}
           (Some octo_org) ∅ [("src/a.go", ["@octo/backend"; "@dana"])]).
  - apply cache_ok_empty.
  - vm_compute. reflexivity.
Defined.

(** ** Locating the ownership document *)

Lemma get_codeowners_loop_first repo before path after content :
  (∀ p, p ∈ before → ¬ is_ok (read_codeowners_at repo p)) →
  read_codeowners_at repo path = Ok content →
  get_codeowners_loop repo (before ++ path :: after) = Some content.
Proof.
  intros Hbefore Hread. induction before as [|p before IH]; cbn [app get_codeowners_loop].
  - by rewrite Hread.
  - destruct (read_codeowners_at repo p) eqn:Hp.
    + destruct (Hbefore p); [by apply elem_of_cons; left|by rewrite Hp].
    + apply IH. intros q Hq. apply Hbefore. by apply elem_of_cons; right.
Qed.

Lemma get_codeowners_loop_none repo paths :
  (∀ p, p ∈ paths → ¬ is_ok (read_codeowners_at repo p)) →
  get_codeowners_loop repo paths = None.
Proof.
  intros Hnone. induction paths as [|p paths IH]; [done|]. cbn [get_codeowners_loop].
  destruct (read_codeowners_at repo p) eqn:Hp.
  - destruct (Hnone p); [by apply elem_of_cons; left|by rewrite Hp].
  - apply IH. intros q Hq. apply Hnone. by apply elem_of_cons; right.
Qed.

(** X1: the candidate locations are tried in the order [.github/CODEOWNERS],
    [docs/CODEOWNERS], [CODEOWNERS]; the rule table is built from the first
    one that can be read, whatever error the earlier ones raised and whatever
    the later ones hold. *)
Theorem get_codeowners_first_readable w repo before path after content :
  [".github/CODEOWNERS"; "docs/CODEOWNERS"; "CODEOWNERS"] = before ++ path :: after →
  (∀ p, p ∈ before → ¬ is_ok (read_codeowners_at repo p)) →
  read_codeowners_at repo path = Ok content →
  get_codeowners w repo = CodeOwners_init w content.
Proof.
  intros Hpaths Hbefore Hread. unfold get_codeowners. cbv zeta. rewrite Hpaths.
  by rewrite (get_codeowners_loop_first _ _ _ _ _ Hbefore Hread).
Qed.

Lemma get_codeowners_first_readable_witness :
  get_codeowners (world_of (Some "secret") nested_repo) nested_repo =
    CodeOwners_init (world_of (Some "secret") nested_repo) "* @docs-owner".
Proof.
  apply (get_codeowners_first_readable (world_of (Some "secret") nested_repo)
           nested_repo [".github/CODEOWNERS"] "docs/CODEOWNERS" ["CODEOWNERS"]).
  - reflexivity.
  - intros p [->|Hp%elem_of_nil]%elem_of_cons; [|done]. vm_compute. intros [].
  - reflexivity.
Defined.

(** X2: when none of the three candidate locations can be read, the run ends
    with the single line [::error::CODEOWNERS file not found in the
    repository.] and status 1, before the changed files or the reviews are
    fetched. *)
Theorem codeowners_not_found_aborts_run w args token repo pr :
  getenv w "GITHUB_TOKEN" = Some token →
  token ≠ "" →
  get_repo (Github_init w token) (repo_name args) = Ok repo →
  get_pull repo (pr_number args) = Ok pr →
  (∀ p, p ∈ [".github/CODEOWNERS"; "docs/CODEOWNERS"; "CODEOWNERS"] →
        ¬ is_ok (read_codeowners_at repo p)) →
  get_codeowners w repo =
    Raise (FileNotFoundError "CODEOWNERS file not found in the repository.")
  ∧ main w args = (["::error::CODEOWNERS file not found in the repository."], 1%Z).
Proof.
  intros Htoken Hne Hrepo Hpr Hnone.
  assert (get_codeowners w repo =
            Raise (FileNotFoundError "CODEOWNERS file not found in the repository."))
    as Hco.
  { unfold get_codeowners. cbv zeta. by rewrite (get_codeowners_loop_none _ _ Hnone). }
  split; [done|]. rewrite main_of_report. unfold run_missing_approvals.
  rewrite Htoken. destruct token as [|ch token]; [done|]. cbn [rbind].
  rewrite Hrepo. cbn [rbind]. rewrite Hpr. cbn [rbind]. rewrite Hco. done.
Qed.

Lemma codeowners_not_found_aborts_run_witness :
  get_codeowners (world_of (Some "secret") bare_repo) bare_repo =
    Raise (FileNotFoundError "CODEOWNERS file not found in the repository.")
  ∧ main (world_of (Some "secret") bare_repo) example_args =
      (["::error::CODEOWNERS file not found in the repository."], 1%Z).
Proof.
  apply (codeowners_not_found_aborts_run (world_of (Some "secret") bare_repo)
           example_args "secret" bare_repo
           {| get_files := Raise (GithubException "502 Bad Gateway");
              get_reviews := Raise (GithubException "502 Bad Gateway") |}).
  - reflexivity.
  - discriminate.
  - reflexivity.
  - reflexivity.
  - intros p _. vm_compute. intros [].
Defined.

(** ** The approval set *)

(** X3: a login is in the approval set exactly when some review of the pull
    request by that user has the state [APPROVED]; reviews of other states,
    earlier or later, by the same user do not take it out. *)
Theorem approved_iff_some_review_approved pr reviews :
  get_reviews pr = Ok reviews →
  ∃ approved,
    get_approved_reviews pr = Ok approved ∧
    ∀ name,
      name ∈ approved ↔
      ∃ review, review ∈ reviews ∧ login (user review) = name ∧
                state review = "APPROVED".
Proof.
  intros Hreviews. unfold get_approved_reviews. rewrite Hreviews. cbn [rbind].
  eexists. split; [done|]. intros name.
  rewrite elem_of_list_to_set, list_elem_of_fmap. split.
  - intros (review & -> & [Hstate Hin]%list_elem_of_filter). by exists review.
  - intros (review & Hin & <- & Hstate). exists review. split; [done|].
    by apply list_elem_of_filter.
Qed.

Lemma approved_iff_some_review_approved_witness :
  ∃ approved,
    get_approved_reviews
      {| get_files := Ok [];
         get_reviews := Ok [review_by "alice" "APPROVED";
                            review_by "alice" "CHANGES_REQUESTED";
                            review_by "bob" "COMMENTED"] |} = Ok approved ∧
    ∀ name,
      name ∈ approved ↔
      ∃ review,
        review ∈ [review_by "alice" "APPROVED"; review_by "alice" "CHANGES_REQUESTED";
                  review_by "bob" "COMMENTED"] ∧
        login (user review) = name ∧ state review = "APPROVED".
Proof.
  apply (approved_iff_some_review_approved
           {| get_files := Ok [];
              get_reviews := Ok [review_by "alice" "APPROVED";
                                 review_by "alice" "CHANGES_REQUESTED";
                                 review_by "bob" "COMMENTED"] |}).
  reflexivity.
Defined.

(** ** Failures before the evaluation *)

(** X4: without a credential, [GITHUB_TOKEN] unset or set to the empty
    string, the run ends with the single line [::error::GITHUB_TOKEN
    environment variable not found.] and status 1, whatever the repository
    holds. *)
Theorem missing_token_aborts_run w args :
  getenv w "GITHUB_TOKEN" = None ∨ getenv w "GITHUB_TOKEN" = Some "" →
  run_missing_approvals w args =
    Raise (EnvironmentError "GITHUB_TOKEN environment variable not found.")
  ∧ main w args = (["::error::GITHUB_TOKEN environment variable not found."], 1%Z).
Proof.
  intros Htoken.
  assert (run_missing_approvals w args =
            Raise (EnvironmentError "GITHUB_TOKEN environment variable not found."))
    as Hrun.
  { unfold run_missing_approvals. by destruct Htoken as [-> | ->]. }
  split; [done|]. by rewrite main_of_report, Hrun.
Qed.

Lemma missing_token_aborts_run_witness :
  run_missing_approvals (world_of (Some "") nested_repo) example_args =
    Raise (EnvironmentError "GITHUB_TOKEN environment variable not found.")
  ∧ main (world_of (Some "") nested_repo) example_args =
      (["::error::GITHUB_TOKEN environment variable not found."], 1%Z).
Proof.
  apply (missing_token_aborts_run (world_of (Some "") nested_repo) example_args).
  right. reflexivity.
Defined.

(** X5: once the command line is parsed, the run ([main], the [try] block of
    [__main__]) exits with status 0 or 1; with status 0 it makes no call of
    [print], with status 1 it makes at least one, and the string of every
    call of [print] starts with [::error::]. *)
Theorem main_output_discipline w args :
  ((main w args).2 = 0%Z ∧ (main w args).1 = [])
  ∨ ((main w args).2 = 1%Z ∧ (main w args).1 ≠ [] ∧
     ∀ line, line ∈ (main w args).1 → String.prefix "::error::" line = true).
Proof.
  rewrite main_of_report.
  destruct (run_missing_approvals w args) as [[|entry report]|e]; cbn [fst snd].
  - by left.
  - right. split; [done|]. split; [done|].
    intros line ([file missing] & -> & _)%list_elem_of_fmap. reflexivity.
  - right. split; [done|]. split; [done|].
    intros line [->|Hin%elem_of_nil]%elem_of_cons; [|done].
    by destruct (str e).
Qed.

(** ** The whole run *)

Lemma gather_uncached_all_empty codeowners approved org files report0 :
  (∀ file, file ∈ files →
           unmet_names approved org (get_file_owners codeowners file) = Ok []) →
  gather_uncached codeowners approved org files report0 = Ok report0.
Proof.
  induction files as [|f rest IH]; intros Hall; [done|]. cbn [gather_uncached].
  rewrite (Hall f) by (by apply elem_of_cons; left). cbn [rbind].
  apply IH. intros file Hin. apply Hall. by apply elem_of_cons; right.
Qed.

Lemma gather_uncached_ok_each codeowners approved org files :
  ∀ report0 report file,
    gather_uncached codeowners approved org files report0 = Ok report →
    file ∈ files →
    ∃ names, unmet_names approved org (get_file_owners codeowners file) = Ok names.
Proof.
  induction files as [|f rest IH]; intros report0 report file Hrun Hin.
  - by apply elem_of_nil in Hin.
  - cbn [gather_uncached] in Hrun.
    destruct (unmet_names approved org (get_file_owners codeowners f))
      as [names|e] eqn:Hf; [|done]. cbn [rbind] in Hrun.
    apply elem_of_cons in Hin as [->|Hin]; [by exists names|].
    by apply (IH _ _ _ Hrun).
Qed.

Lemma first_occurrences_nil l : first_occurrences ∅ l = [] → l = [].
Proof.
  destruct l as [|x l]; [done|]. cbn [first_occurrences].
  by rewrite bool_decide_eq_false_2 by apply not_elem_of_empty.
Qed.

(** X6: once the inputs are fetched, the run exits with status 0 exactly when
    the evaluation of every changed file returns an empty missing list. *)
Theorem exit_zero_iff_every_file_fully_approved
    w args files codeowners approved org :
  fetch_inputs w args = Ok (files, codeowners, approved, org) →
  (main w args).2 = 0%Z ↔
  ∀ file, file ∈ files →
    outcome (get_missing_approvals_for_file file codeowners approved org) ∅ = Ok [].
Proof.
  intros Hfetch.
  assert (run_missing_approvals w args =
            gather_uncached codeowners approved org files []) as Hrun.
  { rewrite run_missing_approvals_fetch, Hfetch. cbn [rbind fst snd].
    apply outcome_gather_missing_approvals, cache_ok_empty. }
  rewrite main_of_report, Hrun. split.
  - destruct (gather_uncached codeowners approved org files [])
      as [[|entry report]|e] eqn:Hgather; cbn [snd]; [|done..].
    intros _ file Hin.
    rewrite outcome_get_missing_approvals_for_file by apply cache_ok_empty.
    destruct (gather_uncached_ok_each _ _ _ _ _ _ _ Hgather Hin) as [names Hnames].
    rewrite Hnames. f_equal. rewrite (unmet_names_ok_pending _ _ _ _ _ Hnames).
    pose proof (gather_uncached_keys _ _ _ _ _ _ Hgather) as Hkeys.
    cbn in Hkeys. symmetry in Hkeys. apply first_occurrences_nil in Hkeys.
    destruct (decide (pending_names codeowners approved org file = [])) as [|Hne];
      [done|].
    assert (file ∈ filter (λ file, pending_names codeowners approved org file ≠ [])
                     files) as Hin' by (by apply list_elem_of_filter).
    rewrite Hkeys in Hin'. by apply elem_of_nil in Hin'.
  - intros Hall. rewrite gather_uncached_all_empty; [done|].
    intros file Hin.
    rewrite <- (outcome_get_missing_approvals_for_file approved org file codeowners ∅)
      by apply cache_ok_empty.
    by apply Hall.
Qed.

Lemma exit_zero_iff_every_file_fully_approved_witness :
  (main (example_world true ["README.md"; "src/a.go"] ["alice"; "carl"; "dana"])
     example_args).2 = 0%Z ↔
  ∀ file, file ∈ ["README.md"; "src/a.go"] →
    outcome (get_missing_approvals_for_file file example_codeowners
               {["alice"; "carl"; "dana"]} (Some octo_org)) ∅ = Ok [].
Proof.
  apply (exit_zero_iff_every_file_fully_approved
           (example_world true ["README.md"; "src/a.go"] ["alice"; "carl"; "dana"])
           example_args).
  vm_compute. reflexivity.
Defined.

(** ** More approvals never hurt *)

Lemma owner_unmet_mono (approved approved' : gset string) org o unmet :
  approved ⊆ approved' →
  owner_unmet approved org o = Ok unmet →
  ∃ unmet', owner_unmet approved' org o = Ok unmet' ∧ (unmet' = true → unmet = true).
Proof.
  intros Hsub. unfold owner_unmet. destruct (String.eqb o.1 "TEAM").
  - destruct (resolve_team org o.2) as [members|e]; [|done]. cbn [rbind].
    intros [= <-]. eexists. split; [done|].
    intros Hnone%negb_true_iff. apply negb_true_iff.
    destruct (existsb (λ member, bool_decide (member ∈ approved)) members) eqn:Hex;
      [|done].
    apply existsb_exists in Hex as (m & Hm & Happ%bool_decide_eq_true).
    rewrite <- Hnone. symmetry. apply existsb_exists. exists m. split; [done|].
    apply bool_decide_eq_true. by apply Hsub.
  - intros [= <-]. eexists. split; [done|].
    intros Hout%negb_true_iff%bool_decide_eq_false. apply negb_true_iff.
    apply bool_decide_eq_false. intros Hin. apply Hout. by apply Hsub.
Qed.

Lemma unmet_names_mono (approved approved' : gset string) org file_owners :
  approved ⊆ approved' →
  ∀ names,
    unmet_names approved org file_owners = Ok names →
    ∃ names', unmet_names approved' org file_owners = Ok names' ∧ sublist names' names.
Proof.
  intros Hsub. induction file_owners as [|o rest IH]; intros names.
  - intros [= <-]. by exists [].
  - cbn [unmet_names].
    destruct (owner_unmet approved org o) as [unmet|e] eqn:Ho; [|done]. cbn [rbind].
    destruct (unmet_names approved org rest) as [names0|e]; [|done]. cbn [rbind].
    intros [= <-].
    destruct (owner_unmet_mono _ _ _ _ _ Hsub Ho) as (unmet' & -> & Himp).
    destruct (IH names0 eq_refl) as (names0' & -> & Hsl). cbn [rbind].
    eexists. split; [done|]. destruct unmet'.
    + rewrite (Himp eq_refl). by apply sublist_skip.
    + destruct unmet; [by apply sublist_cons|done].
Qed.

(** X7: enlarging the approval set never adds to a file's missing list: the
    evaluation of the file still succeeds and its missing list is a
    subsequence of the former one. *)
Theorem more_approvals_shrink_missing_list
    file codeowners (approved approved' : gset string) org cache missing :
  cache_ok org cache →
  approved ⊆ approved' →
  outcome (get_missing_approvals_for_file file codeowners approved org) cache =
    Ok missing →
  ∃ missing',
    outcome (get_missing_approvals_for_file file codeowners approved' org) cache =
      Ok missing'
    ∧ sublist missing' missing.
Proof.
  intros Hok Hsub. rewrite !outcome_get_missing_approvals_for_file by done.
  by apply unmet_names_mono.
Qed.

Lemma more_approvals_shrink_missing_list_witness :
  ∃ missing',
    outcome (get_missing_approvals_for_file "src/a.go" example_codeowners
               {["alice"; "dana"]} (Some octo_org)) ∅ = Ok missing'
    ∧ sublist missing' ["@octo/backend"; "@dana"].
Proof.
  apply (more_approvals_shrink_missing_list "src/a.go" example_codeowners
           {["alice"]} {["alice"; "dana"]} (Some octo_org) ∅).
  - apply cache_ok_empty.
  - set_solver.
  - vm_compute. reflexivity.
Defined.

(** ** Runs that need no organization *)

Lemma unmet_names_no_team approved org file_owners :
  (∀ owner_name, ("TEAM", owner_name) ∉ file_owners) →
  ∃ names,
    unmet_names approved org file_owners = Ok names ∧
    unmet_names approved None file_owners = Ok names.
Proof.
  induction file_owners as [|[owner_type owner_name] rest IH]; intros Hfree.
  - by exists [].
  - assert (owner_type ≠ "TEAM") as Hty.
    { intros ->. apply (Hfree owner_name). by apply elem_of_cons; left. }
    destruct IH as (names & Horg & Hnone).
    { intros name Hin. apply (Hfree name). by apply elem_of_cons; right. }
    cbn [unmet_names]. rewrite !(owner_unmet_individual _ _ _ _ Hty), Horg, Hnone.
    cbn [rbind]. by eexists.
Qed.

Lemma gather_uncached_no_team codeowners approved org files :
  (∀ file owner_name,
     file ∈ files → ("TEAM", owner_name) ∉ get_file_owners codeowners file) →
  ∀ report0, ∃ report,
    gather_uncached codeowners approved org files report0 = Ok report ∧
    gather_uncached codeowners approved None files report0 = Ok report.
Proof.
  induction files as [|f rest IH]; intros Hfree report0; [by exists report0|].
  cbn [gather_uncached].
  destruct (unmet_names_no_team approved org (get_file_owners codeowners f))
    as (names & -> & ->).
  { intros name. apply Hfree. by apply elem_of_cons; left. }
  cbn [rbind]. apply IH. intros file name Hin. apply Hfree. by apply elem_of_cons; right.
Qed.

(** X8: when no changed file has an owner of type TEAM, the evaluation never
    raises and does not depend on the organization: it returns the same
    report with any organization and with none ([org = None]). *)
Theorem no_team_owner_needs_no_organization files codeowners approved org cache :
  cache_ok org cache →
  (∀ file owner_name,
     file ∈ files → ("TEAM", owner_name) ∉ get_file_owners codeowners file) →
  ∃ report,
    outcome (gather_missing_approvals files codeowners approved org) cache = Ok report
    ∧ outcome (gather_missing_approvals files codeowners approved None) ∅ = Ok report.
Proof.
  intros Hok Hfree.
  rewrite outcome_gather_missing_approvals by done.
  rewrite outcome_gather_missing_approvals by apply cache_ok_empty.
  by apply gather_uncached_no_team.
Qed.

Lemma no_team_owner_needs_no_organization_witness :
  ∃ report,
    outcome (gather_missing_approvals ["README.md"; "LICENSE"] example_codeowners
               {["bob"]} (Some octo_org)) ∅ = Ok report
    ∧ outcome (gather_missing_approvals ["README.md"; "LICENSE"] example_codeowners
                 {["bob"]} None) ∅ = Ok report.
Proof.
  apply (no_team_owner_needs_no_organization ["README.md"; "LICENSE"]
           example_codeowners {["bob"]} (Some octo_org) ∅).
  - apply cache_ok_empty.
  - intros file owner_name Hfile Howner.
    repeat (apply elem_of_cons in Hfile as [->|Hfile]);
      [..|by apply elem_of_nil in Hfile];
      match type of Howner with
      | _ ∈ ?l => let l' := eval vm_compute in l in change l with l' in Howner
      end;
      repeat (apply elem_of_cons in Howner as [[= ]|Howner]);
      by apply elem_of_nil in Howner.
Defined.

(** ** The memoised group lookup *)

(** X9: the cache an evaluation leaves behind holds only results of the group
    lookup, and memoisation never changes an outcome: repeating the
    evaluation in that cache gives the same outcome again, and any other
    evaluation against the same organization gives in it the outcome it gives
    in a fresh process. *)
Theorem evaluation_is_repeatable
    files codeowners approved org cache result cache' :
  cache_ok org cache →
  gather_missing_approvals files codeowners approved org cache = (result, cache') →
  cache_ok org cache'
  ∧ outcome (gather_missing_approvals files codeowners approved org) cache' = result
  ∧ ∀ files' codeowners' approved',
      outcome (gather_missing_approvals files' codeowners' approved' org) cache' =
      outcome (gather_missing_approvals files' codeowners' approved' org) ∅.
Proof.
  intros Hok Hrun. unfold gather_missing_approvals in Hrun.
  destruct (gather_loop_uncached approved org codeowners files [] cache Hok)
    as (c & Hc & Heq).
  rewrite Heq in Hrun. injection Hrun as <- <-.
  split; [done|]. split.
  - by apply outcome_gather_missing_approvals.
  - intros files' codeowners' approved'.
    rewrite outcome_gather_missing_approvals by done.
    by rewrite outcome_gather_missing_approvals by apply cache_ok_empty.
Qed.

Lemma evaluation_is_repeatable_witness :
  cache_ok (Some octo_org) {["backend" := ["bob"; "carl"]; "interns" := []]}
  ∧ outcome (gather_missing_approvals ["src/a.go"; "jobs/nightly.yml"; "src/b.go"]
               example_codeowners {["carl"]} (Some octo_org))
      {["backend" := ["bob"; "carl"]; "interns" := []]} =
      Ok [("src/a.go", ["@dana"]);
          ("jobs/nightly.yml", ["@octo/interns"; "dev@example.com"]);
          ("src/b.go", ["@dana"])]
  ∧ ∀ files' codeowners' approved',
      outcome (gather_missing_approvals files' codeowners' approved' (Some octo_org))
        {["backend" := ["bob"; "carl"]; "interns" := []]} =
      outcome (gather_missing_approvals files' codeowners' approved' (Some octo_org)) ∅.
Proof.
  apply (evaluation_is_repeatable ["src/a.go"; "jobs/nightly.yml"; "src/b.go"]
           example_codeowners {["carl"]} (Some octo_org) ∅).
  - apply cache_ok_empty.
  - vm_compute. reflexivity.
Defined.

(** ** What makes the evaluation of a file fail *)

Lemma split_sep_free sep s :
  Forall (λ segment, PyStr.contains sep segment = false) (PyStr.split sep s).
Proof.
  induction s as [|ch rest IH]; cbn [PyStr.split].
  - by apply Forall_singleton.
  - destruct (Ascii.eqb ch sep) eqn:Hch; [by apply Forall_cons|].
    destruct (PyStr.split sep rest) as [|w ws]; cbn [PyStr.contains].
    + apply Forall_singleton. cbn. by rewrite Hch.
    + apply Forall_cons in IH as [Hw Hws]. apply Forall_cons. split; [|done].
      cbn. by rewrite Hch, Hw.
Qed.

Lemma concat_cons_cons (sep x y : string) (l : list string) :
  String.concat sep (x :: y :: l) = x +:+ sep +:+ String.concat sep (y :: l).
Proof. reflexivity. Qed.

Lemma join_split sep s : PyStr.join (String sep "") (PyStr.split sep s) = s.
Proof.
  unfold PyStr.join. induction s as [|ch rest IH]; [done|]. cbn [PyStr.split].
  pose proof (split_not_nil sep rest) as Hne.
  destruct (Ascii.eqb ch sep) eqn:Hch.
  - apply Ascii.eqb_eq in Hch as ->.
    destruct (PyStr.split sep rest) as [|w ws]; [done|].
    rewrite concat_cons_cons, IH. reflexivity.
  - destruct (PyStr.split sep rest) as [|w [|w' ws]]; [done|..].
    + cbn [String.concat] in *. by rewrite IH.
    + rewrite concat_cons_cons in *. rewrite <- IH. reflexivity.
Qed.

Lemma string_app_assoc (s1 s2 s3 : string) : (s1 +:+ s2) +:+ s3 = s1 +:+ (s2 +:+ s3).
Proof. induction s1 as [|ch s1 IH]; [done|]. exact (f_equal (String ch) IH). Qed.

Lemma join_snoc sep parts segment :
  parts ≠ [] →
  PyStr.join (String sep "") (parts ++ [segment]) =
    PyStr.join (String sep "") parts +:+ String sep segment.
Proof.
  unfold PyStr.join. intros Hne. induction parts as [|x [|y parts] IH]; [done|done|].
  cbn [app] in *. rewrite !concat_cons_cons, IH by done.
  by rewrite !string_app_assoc.
Qed.

Lemma item_last_split_inv sep name segment :
  item_last (PyStr.split sep name) = Ok segment → final_segment sep name segment.
Proof.
  unfold item_last. destruct (last (PyStr.split sep name)) as [seg|] eqn:Hlast; [|done].
  intros [= ->]. apply last_Some in Hlast as [parts Hparts].
  pose proof (split_sep_free sep name) as Hfree. rewrite Hparts in Hfree.
  apply Forall_app in Hfree as [_ Hseg]. apply Forall_cons in Hseg as [Hseg _].
  split; [done|].
  pose proof (join_split sep name) as Hjoin. rewrite Hparts in Hjoin.
  destruct parts as [|x parts]; [left; symmetry; exact Hjoin|].
  right. eexists. rewrite <- Hjoin. by apply join_snoc.
Qed.

(** X11: the evaluation of a file raises only when the group lookup of one of
    its Team owners raises, and then with that lookup's exception; taking the
    part of the owner's name after its last [/] never fails. *)
Theorem file_evaluation_fails_only_on_group_lookup
    file codeowners approved org cache e :
  cache_ok org cache →
  outcome (get_missing_approvals_for_file file codeowners approved org) cache = Raise e →
  ∃ owner_name team_slug,
    ("TEAM", owner_name) ∈ get_file_owners codeowners file ∧
    final_segment "/" owner_name team_slug ∧
    get_team_members_body org team_slug = Raise e.
Proof.
  intros Hok. rewrite outcome_get_missing_approvals_for_file by done.
  intros (owner_name & Hin & Hres)%unmet_names_raise.
  unfold resolve_team in Hres.
  destruct (item_last (PyStr.split "/" owner_name)) as [team_slug|e'] eqn:Hlast.
  - exists owner_name, team_slug. split; [done|].
    split; [by apply item_last_split_inv|done].
  - by destruct (item_last_split_total "/" owner_name) as [segment Hsome];
      rewrite Hsome in Hlast.
Qed.

Lemma file_evaluation_fails_only_on_group_lookup_witness :
  ∃ owner_name team_slug,
    ("TEAM", owner_name) ∈ get_file_owners example_codeowners "ops/deploy.sh" ∧
    final_segment "/" owner_name team_slug ∧
    get_team_members_body (Some octo_org) team_slug =
      Raise (GithubException "404 Not Found").
Proof.
  apply (file_evaluation_fails_only_on_group_lookup "ops/deploy.sh" example_codeowners
           {["alice"]} (Some octo_org) ∅).
  - apply cache_ok_empty.
  - vm_compute. reflexivity.
Defined.

(** X12: a file's missing list is a subsequence of the names of the file's
    owners: the evaluator reports no name that is not an owner of the file
    and keeps the owners' order. *)
Theorem missing_list_is_subsequence_of_owners
    file codeowners approved org cache missing :
  cache_ok org cache →
  outcome (get_missing_approvals_for_file file codeowners approved org) cache =
    Ok missing →
  sublist missing (get_file_owners codeowners file).*2.
Proof.
  intros Hok. rewrite outcome_get_missing_approvals_for_file by done.
  intros ->%unmet_names_ok_pending. unfold pending_names.
  apply fmap_sublist, sublist_filter.
Qed.

Lemma missing_list_is_subsequence_of_owners_witness :
  sublist ["@dana"] (get_file_owners example_codeowners "src/a.go").*2.
Proof.
  apply (missing_list_is_subsequence_of_owners "src/a.go" example_codeowners
           {["bob"]} (Some octo_org) ∅).
  - apply cache_ok_empty.
  - vm_compute. reflexivity.
Defined.

(** ** The shape of the report *)

Lemma first_occurrences_fresh seen l x :
  x ∈ first_occurrences seen l → (x ∉ seen) ∧ x ∈ l.
Proof.
  revert seen. induction l as [|y l IH]; intros seen; cbn [first_occurrences].
  - by intros ?%elem_of_nil.
  - destruct (bool_decide (y ∈ seen)) eqn:Hy.
    + intros [? ?]%IH. split; [done|by apply elem_of_cons; right].
    + apply bool_decide_eq_false in Hy.
      intros [->|[Hnew ?]%IH]%elem_of_cons.
      * split; [done|by apply elem_of_cons; left].
      * split; [|by apply elem_of_cons; right].
        intros Hseen. apply Hnew. by apply elem_of_union; right.
Qed.

Lemma first_occurrences_distinct seen l : NoDup (first_occurrences seen l).
Proof.
  revert seen. induction l as [|y l IH]; intros seen; cbn [first_occurrences].
  - apply NoDup_nil_2.
  - destruct (bool_decide (y ∈ seen)); [apply IH|].
    apply NoDup_cons. split; [|apply IH].
    intros [Hnew _]%first_occurrences_fresh. apply Hnew.
    by apply elem_of_union; left; apply elem_of_singleton.
Qed.

Lemma first_occurrences_sublist seen l : sublist (first_occurrences seen l) l.
Proof.
  revert seen. induction l as [|y l IH]; intros seen; cbn [first_occurrences].
  - apply sublist_nil.
  - destruct (bool_decide (y ∈ seen)); [by apply sublist_cons|by apply sublist_skip].
Qed.

(** X13: the report never holds a file twice, also when the changed-file
    sequence repeats one, and its keys are a subsequence of that sequence. *)
Theorem report_keys_distinct_changed_files files codeowners approved org cache report :
  cache_ok org cache →
  outcome (gather_missing_approvals files codeowners approved org) cache = Ok report →
  NoDup (keys report) ∧ sublist (keys report) files.
Proof.
  intros Hok. rewrite outcome_gather_missing_approvals by done. intros Hrun.
  pose proof (gather_uncached_keys _ _ _ _ _ _ Hrun) as Hkeys. cbn in Hkeys.
  rewrite Hkeys. split; [apply first_occurrences_distinct|].
  etrans; [apply first_occurrences_sublist|apply sublist_filter].
Qed.

Lemma report_keys_distinct_changed_files_witness :
  NoDup (keys [("src/a.go", ["@octo/backend"; "@dana"]); ("README.md", ["@alice"])])
  ∧ sublist (keys [("src/a.go", ["@octo/backend"; "@dana"]); ("README.md", ["@alice"])])
      ["src/a.go"; "README.md"; "src/a.go"; "LICENSE"; "README.md"].
Proof.
  apply (report_keys_distinct_changed_files
           ["src/a.go"; "README.md"; "src/a.go"; "LICENSE"; "README.md"]
           example_codeowners ∅ (Some octo_org) ∅).
  - apply cache_ok_empty.
  - vm_compute. reflexivity.
Defined.

(** ** The first failure ends the evaluation *)

(** X14: the evaluation of the changed files raises exactly when the
    evaluation of one of them raises, and then with the exception of the
    first such file in the sequence; the files after it are not reported. *)
Theorem first_failing_file_ends_evaluation files codeowners approved org cache e :
  cache_ok org cache →
  outcome (gather_missing_approvals files codeowners approved org) cache = Raise e ↔
  ∃ before file after,
    files = before ++ file :: after ∧
    (∀ f, f ∈ before →
       is_ok (outcome (get_missing_approvals_for_file f codeowners approved org) cache)) ∧
    outcome (get_missing_approvals_for_file file codeowners approved org) cache = Raise e.
Proof.
  intros Hok. rewrite outcome_gather_missing_approvals by done.
  rewrite gather_uncached_raise_iff.
  split; intros (before & file & after & Heq & Hbefore & Hfile);
    exists before, file, after; (split; [done|]); split.
  - intros f Hf. rewrite outcome_get_missing_approvals_for_file by done.
    by apply Hbefore.
  - by rewrite outcome_get_missing_approvals_for_file.
  - intros f Hf. specialize (Hbefore f Hf).
    by rewrite outcome_get_missing_approvals_for_file in Hbefore.
  - by rewrite outcome_get_missing_approvals_for_file in Hfile.
Qed.

Lemma first_failing_file_ends_evaluation_witness :
  outcome (gather_missing_approvals ["src/a.go"; "ops/deploy.sh"; "README.md"]
             example_codeowners {["alice"]} (Some octo_org)) ∅ =
    Raise (GithubException "404 Not Found") ↔
  ∃ before file after,
    ["src/a.go"; "ops/deploy.sh"; "README.md"] = before ++ file :: after ∧
    (∀ f, f ∈ before →
       is_ok (outcome (get_missing_approvals_for_file f example_codeowners
                         {["alice"]} (Some octo_org)) ∅)) ∧
    outcome (get_missing_approvals_for_file file example_codeowners
               {["alice"]} (Some octo_org)) ∅ =
      Raise (GithubException "404 Not Found").
Proof.
  apply (first_failing_file_ends_evaluation
           ["src/a.go"; "ops/deploy.sh"; "README.md"] example_codeowners
           {["alice"]} (Some octo_org) ∅).
  apply cache_ok_empty.
Defined.
